(** * The i.MX27 PWM driver (drivers/pwm/pwm-imx27.c)

    A shallow embedding of [pwm_imx27_get_state], [pwm_imx27_sw_reset],
    [pwm_imx27_wait_fifo_slot] and [pwm_imx27_apply].

    C integers are [Z] with the wrap-around of every conversion written
    out.  The device and the clock framework are an environment
    ([platform]) that answers each register read and each clock request
    from the history of events so far; the driver's own state is the
    cached duty cycle of [struct pwm_imx27_chip].  Every access to the
    outside world is appended to a chronological trace of events. *)

From Stdlib Require Import ZArith List Bool String Lia.
From Equations Require Import Equations.
Import ListNotations.

Local Open Scope Z_scope.

(** ** C integer types *)

(** The width of [unsigned long] differs between the 32-bit i.MX parts and
    the 64-bit ones; the driver is built for both. *)
Inductive abi := ILP32 | LP64.

Definition BITS_PER_LONG (a : abi) : Z :=
  match a with ILP32 => 32 | LP64 => 64 end.

Definition u32 (x : Z) : Z := x mod 2 ^ 32.
Definition u64 (x : Z) : Z := x mod 2 ^ 64.
Definition ulong (a : abi) (x : Z) : Z := x mod 2 ^ BITS_PER_LONG a.

(** Conversion to [int]: the two's complement reading of the low 32 bits. *)
Definition s32 (x : Z) : Z :=
  if u32 x <? 2 ^ 31 then u32 x else u32 x - 2 ^ 32.

(** ** Kernel helpers (linux/bits.h, linux/bitfield.h, linux/math.h,
       asm/div64.h) *)

Definition BIT (n : Z) : Z := Z.shiftl 1 n.
Definition GENMASK (h l : Z) : Z := Z.shiftl (Z.ones (h - l + 1)) l.

(** [__bf_shf]: index of the lowest set bit of a mask. *)
Definition __bf_shf (mask : Z) : Z := Z.log2 (Z.land mask (- mask)).

Definition FIELD_GET (mask reg : Z) : Z :=
  Z.shiftr (Z.land reg mask) (__bf_shf mask).
Definition FIELD_PREP (mask val : Z) : Z :=
  Z.land (Z.shiftl val (__bf_shf mask)) mask.

Definition NSEC_PER_SEC : Z := 1000000000.
Definition NSEC_PER_MSEC : Z := 1000000.

(** [do_div(n, base)] divides the 64-bit [n] by [base] truncated to 32
    bits and leaves the quotient in [n].  A zero divisor yields the
    quotient 0, as both ARM implementations do (the [Ldiv0_64] exit of
    arch/arm/lib/div64.S and the AArch64 UDIV instruction). *)
Definition do_div (n base : Z) : Z := u64 n / u32 base.

Definition DIV_ROUND_DOWN_ULL (ll d : Z) : Z := do_div ll d.
Definition DIV_ROUND_UP_ULL (ll d : Z) : Z :=
  DIV_ROUND_DOWN_ULL (u64 (u64 ll + d - 1)) d.

(** ** Register map *)

Definition MX3_PWMCR : Z := 0x00.
Definition MX3_PWMSR : Z := 0x04.
Definition MX3_PWMSAR : Z := 0x0C.
Definition MX3_PWMPR : Z := 0x10.
Definition MX3_PWMCNR : Z := 0x14.

Definition MX3_PWMCR_FWM : Z := GENMASK 27 26.
Definition MX3_PWMCR_STOPEN : Z := BIT 25.
Definition MX3_PWMCR_DOZEN : Z := BIT 24.
Definition MX3_PWMCR_WAITEN : Z := BIT 23.
Definition MX3_PWMCR_DBGEN : Z := BIT 22.
Definition MX3_PWMCR_BCTR : Z := BIT 21.
Definition MX3_PWMCR_HCTR : Z := BIT 20.

Definition MX3_PWMCR_POUTC : Z := GENMASK 19 18.
Definition MX3_PWMCR_POUTC_NORMAL : Z := 0.
Definition MX3_PWMCR_POUTC_INVERTED : Z := 1.
Definition MX3_PWMCR_POUTC_OFF : Z := 2.

Definition MX3_PWMCR_CLKSRC : Z := GENMASK 17 16.
Definition MX3_PWMCR_CLKSRC_OFF : Z := 0.
Definition MX3_PWMCR_CLKSRC_IPG : Z := 1.
Definition MX3_PWMCR_CLKSRC_IPG_HIGH : Z := 2.
Definition MX3_PWMCR_CLKSRC_IPG_32K : Z := 3.

Definition MX3_PWMCR_PRESCALER : Z := GENMASK 15 4.
Definition MX3_PWMCR_SWR : Z := BIT 3.
Definition MX3_PWMCR_REPEAT : Z := GENMASK 2 1.
Definition MX3_PWMCR_EN : Z := BIT 0.

Definition MX3_PWMSR_FIFOAV : Z := GENMASK 2 0.
Definition MX3_PWMSR_FIFOAV_EMPTY : Z := 0.
Definition MX3_PWMSR_FIFOAV_1WORD : Z := 1.
Definition MX3_PWMSR_FIFOAV_2WORDS : Z := 2.
Definition MX3_PWMSR_FIFOAV_3WORDS : Z := 3.
Definition MX3_PWMSR_FIFOAV_4WORDS : Z := 4.

Definition MX3_PWMCR_PRESCALER_SET (x : Z) : Z :=
  FIELD_PREP MX3_PWMCR_PRESCALER (x - 1).
Definition MX3_PWMCR_PRESCALER_GET (x : Z) : Z :=
  FIELD_GET MX3_PWMCR_PRESCALER x + 1.

Definition MX3_PWM_SWR_LOOP : Z := 5.

(** PWMPR register value of 0xffff has the same effect as 0xfffe *)
Definition MX3_PWMPR_MAX : Z := 0xfffe.

(** ** The PWM framework's state *)

Inductive pwm_polarity := PWM_POLARITY_NORMAL | PWM_POLARITY_INVERSED.

Record pwm_state := mk_pwm_state {
  period : Z;
  duty_cycle : Z;
  polarity : pwm_polarity;
  enabled : bool
}.

(** [struct pwm_device]: the driver only looks at the state the framework
    recorded at the last apply. *)
Record pwm_device := mk_pwm_device { state : pwm_state }.

(** ** Events, environment and driver state *)

Inductive event :=
| EvReadl (reg val : Z)
| EvWritel (reg val : Z)
| EvClkPrepareEnable (ret : Z)
| EvClkDisableUnprepare
| EvUsleepRange (lo hi : Z)
| EvMsleep (ms : Z)
| EvUdelay (us : Z)
| EvIrqSave
| EvIrqRestore
| EvDevWarn (msg : string).

(** What the driver cannot decide: the ABI it was compiled for, the rate
    of the "per" clock, the result of each clock enable and the value of
    each register read, the last two as functions of the history. *)
Record platform := mk_platform {
  plat_abi : abi;
  clk_get_rate : Z;
  clk_enable_result : list event -> Z;
  mmio : list event -> Z -> Z
}.

(** [struct pwm_imx27_chip] keeps the last programmed duty cycle (an
    [unsigned int]); the clocks and the register window are in the
    environment. *)
Record pwm_imx27_chip := mk_chip { imx_duty_cycle : Z }.

Record machine := mk_machine {
  trace : list event;
  imx : pwm_imx27_chip
}.

(** ** A state monad over [machine] *)

Definition io (A : Type) : Type := machine -> A * machine.

Definition ret {A} (a : A) : io A := fun m => (a, m).
Definition bind {A B} (c : io A) (k : A -> io B) : io B :=
  fun m => let (a, m') := c m in k a m'.

Declare Scope io_scope.
Delimit Scope io_scope with io.
Notation "x <- c ;; k" := (bind c (fun x => k))
  (at level 61, c at next level, right associativity) : io_scope.
Notation "c ;; k" := (bind c (fun _ => k))
  (at level 61, right associativity) : io_scope.
Local Open Scope io_scope.

Definition emit (e : event) : io unit :=
  fun m => (tt, mk_machine (trace m ++ [e]) (imx m)).

Definition get_duty_cycle : io Z :=
  fun m => (u32 (imx_duty_cycle (imx m)), m).
Definition set_duty_cycle (v : Z) : io unit :=
  fun m => (tt, mk_machine (trace m) (mk_chip (u32 v))).

Definition when (b : bool) (c : io unit) : io unit :=
  if b then c else ret tt.

Section Driver.

Variable hw : platform.

Definition readl (reg : Z) : io Z :=
  fun m => let v := u32 (mmio hw (trace m) reg) in
           (v, mk_machine (trace m ++ [EvReadl reg v]) (imx m)).
Definition writel (val reg : Z) : io unit := emit (EvWritel reg (u32 val)).

(** The relaxed accessors differ only in memory barriers. *)
Definition readl_relaxed := readl.
Definition writel_relaxed := writel.

Definition clk_bulk_prepare_enable : io Z :=
  fun m => let r := s32 (clk_enable_result hw (trace m)) in
           (r, mk_machine (trace m ++ [EvClkPrepareEnable r]) (imx m)).
Definition clk_bulk_disable_unprepare : io unit := emit EvClkDisableUnprepare.

Definition usleep_range (lo hi : Z) : io unit := emit (EvUsleepRange lo hi).
Definition msleep (ms : Z) : io unit := emit (EvMsleep ms).
Definition udelay (us : Z) : io unit := emit (EvUdelay us).
Definition local_irq_save : io unit := emit EvIrqSave.
Definition local_irq_restore : io unit := emit EvIrqRestore.
(** The messages are recorded without their trailing newline. *)
Definition dev_warn (msg : string) : io unit := emit (EvDevWarn msg).

(** *** pwm_imx27_get_state *)

Definition pwm_imx27_get_state (st : pwm_state) : io (Z * pwm_state) :=
  r <- clk_bulk_prepare_enable ;;
  if r <? 0 then ret (r, st) else
  val <- readl MX3_PWMCR ;;
  let st_enabled := negb (Z.land val MX3_PWMCR_EN =? 0) in
  let field := FIELD_GET MX3_PWMCR_POUTC val in
  let st_polarity :=
    if field =? MX3_PWMCR_POUTC_NORMAL then PWM_POLARITY_NORMAL
    else if field =? MX3_PWMCR_POUTC_INVERTED then PWM_POLARITY_INVERSED
    else polarity st in
  when (negb (field =? MX3_PWMCR_POUTC_NORMAL)
        && negb (field =? MX3_PWMCR_POUTC_INVERTED))
       (dev_warn "can't set polarity, output disconnected") ;;
  let prescaler := u32 (MX3_PWMCR_PRESCALER_GET val) in
  let pwm_clk := u32 (clk_get_rate hw) in
  val <- readl MX3_PWMPR ;;
  let period := if val >=? MX3_PWMPR_MAX then MX3_PWMPR_MAX else val in
  (* PWMOUT (Hz) = PWMCLK / (PWMPR + 2) *)
  let tmp := u64 (NSEC_PER_SEC * u64 (u32 (period + 2)) * prescaler) in
  let st_period := DIV_ROUND_UP_ULL tmp pwm_clk in
  (* PWMSAR can be read only if PWM is enabled. If the PWM is disabled,
     use the cached value. *)
  val <- (if st_enabled then readl MX3_PWMSAR else get_duty_cycle) ;;
  let tmp := u64 (NSEC_PER_SEC * u64 val * prescaler) in
  let st_duty_cycle := DIV_ROUND_UP_ULL tmp pwm_clk in
  clk_bulk_disable_unprepare ;;
  ret (0, mk_pwm_state st_period st_duty_cycle st_polarity st_enabled).

(** *** pwm_imx27_sw_reset *)

(** One turn of the do-while body: sleep, then read the control register. *)
Definition sw_reset_poll : io Z :=
  usleep_range 200 1000 ;;
  readl MX3_PWMCR.

(** The number of times the loop condition can still send the loop round
    again: [wait_count++ < MX3_PWM_SWR_LOOP] holds that many more times. *)
Definition retries_left (wait_count : Z) : nat :=
  Z.to_nat (MX3_PWM_SWR_LOOP - wait_count).

(** The do-while loop, entered with the current [wait_count]; the loop
    condition is [(cr & MX3_PWMCR_SWR) && (wait_count++ < MX3_PWM_SWR_LOOP)].
    It yields the last value of [cr]. *)
Equations? sw_reset_loop (wait_count : Z) (m : machine) : Z * machine
  by wf (retries_left wait_count) lt :=
sw_reset_loop wait_count m with sw_reset_poll m := {
  | (cr, m') with Sumbool.sumbool_of_bool
                    (negb (Z.land cr MX3_PWMCR_SWR =? 0)
                     && (wait_count <? MX3_PWM_SWR_LOOP)) := {
    | left _ := sw_reset_loop (wait_count + 1) m';
    | right _ := (cr, m') } }.
Proof.
  apply andb_prop in e as [_ e]. apply Z.ltb_lt in e.
  unfold retries_left. lia.
Qed.

Definition pwm_imx27_sw_reset : io unit :=
  writel MX3_PWMCR_SWR MX3_PWMCR ;;
  cr <- sw_reset_loop 0 ;;
  when (negb (Z.land cr MX3_PWMCR_SWR =? 0))
       (dev_warn "software reset timeout").

(** *** pwm_imx27_wait_fifo_slot *)

Definition pwm_imx27_wait_fifo_slot (pwm : pwm_device) : io unit :=
  sr <- readl MX3_PWMSR ;;
  let fifoav := FIELD_GET MX3_PWMSR_FIFOAV sr in
  if fifoav =? MX3_PWMSR_FIFOAV_4WORDS then
    let period_ms :=
      u32 (DIV_ROUND_UP_ULL (period (state pwm)) NSEC_PER_MSEC) in
    msleep period_ms ;;
    sr <- readl MX3_PWMSR ;;
    when (fifoav =? FIELD_GET MX3_PWMSR_FIFOAV sr)
         (dev_warn "there is no free FIFO slot")
  else ret tt.

(** *** pwm_imx27_apply *)

(** [clkrate]: the rate of the "per" clock, an [unsigned long]. *)
Definition apply_clkrate : Z := ulong (plat_abi hw) (clk_get_rate hw).

(** The values of [prescale], [period_cycles] and [duty_cycles] that the
    first part of the function computes (up to the comment on the FIFO):
    the arithmetic is [unsigned long long] for [c] and [unsigned long] for
    the rest. *)
Record counter_units := mk_counter_units {
  prescale : Z;
  period_cycles : Z;
  duty_cycles : Z
}.

Definition apply_counter_units (st : pwm_state) : counter_units :=
  let a := plat_abi hw in
  let clkrate := apply_clkrate in
  let c := u64 (clkrate * u64 (period st)) in
  let c := do_div c NSEC_PER_SEC in
  let period_cycles := ulong a c in
  let prescale := ulong a (period_cycles / 0x10000 + 1) in
  let period_cycles := period_cycles / prescale in
  let c := u64 (clkrate * u64 (duty_cycle st)) in
  let c := do_div c NSEC_PER_SEC in
  let duty_cycles := ulong a c in
  let duty_cycles := duty_cycles / prescale in
  (* according to imx pwm RM, the real period value should be PERIOD
     value in PWMPR plus 2. *)
  let period_cycles :=
    if period_cycles >? 2 then period_cycles - 2 else 0 in
  mk_counter_units prescale period_cycles duty_cycles.

(** [period_us], from the period register ([val], already an [int]) and
    the control register as the hardware shows them. *)
Definition apply_period_us (val cr : Z) : Z :=
  let a := plat_abi hw in
  let clkrate := apply_clkrate in
  let val := if val >=? MX3_PWMPR_MAX then MX3_PWMPR_MAX else val in
  let tmp :=
    ulong a (u64 (NSEC_PER_SEC * u64 (val + 2)
                  * MX3_PWMCR_PRESCALER_GET cr)) in
  let tmp := ulong a (DIV_ROUND_UP_ULL tmp clkrate) in
  ulong a (DIV_ROUND_UP_ULL tmp 1000).

(** The safety margin of 1.5us in clock cycles. *)
Definition apply_margin : Z :=
  do_div (u64 (apply_clkrate * 1500)) NSEC_PER_SEC.

(** The control word of the final write. *)
Definition apply_cr (prescale : Z) (st : pwm_state) : Z :=
  let cr :=
    Z.lor (Z.lor (Z.lor (Z.lor (Z.lor
      (MX3_PWMCR_PRESCALER_SET prescale)
      MX3_PWMCR_STOPEN) MX3_PWMCR_DOZEN) MX3_PWMCR_WAITEN)
      (FIELD_PREP MX3_PWMCR_CLKSRC MX3_PWMCR_CLKSRC_IPG_HIGH))
      MX3_PWMCR_DBGEN in
  let cr :=
    match polarity st with
    | PWM_POLARITY_INVERSED =>
        Z.lor cr (FIELD_PREP MX3_PWMCR_POUTC MX3_PWMCR_POUTC_INVERTED)
    | PWM_POLARITY_NORMAL => cr
    end in
  let cr := if enabled st then Z.lor cr MX3_PWMCR_EN else cr in
  u32 cr.

(** The ERR051198 workaround: what is written to the sample register
    ahead of the new value. *)
Definition apply_erratum (cu : counter_units) (period_us c cr val : Z)
  : io unit :=
  old <- get_duty_cycle ;;
  if (duty_cycles cu <? old) && negb (Z.land cr MX3_PWMCR_EN =? 0) then
    if period_us <? 2 then (* 2us = 500 kHz *)
      (* Best effort attempt to fix up >500 kHz case *)
      udelay (ulong (plat_abi hw) (3 * period_us)) ;;
      writel_relaxed old MX3_PWMSAR ;;
      writel_relaxed old MX3_PWMSAR
    else if val <? MX3_PWMSR_FIFOAV_2WORDS then
      cnr <- readl_relaxed MX3_PWMCNR ;;
      let val := s32 cnr in
      (* If counter is close to period, controller may roll over when
         next IO write. *)
      when (((u64 (val + c) >=? duty_cycles cu) && (u32 val <? old))
            || (u64 (val + c) >=? period_cycles cu))
           (writel_relaxed old MX3_PWMSAR)
    else ret tt
  else ret tt.

(** Everything after the FIFO wait or the reset. *)
Definition apply_commit (cu : counter_units) (st : pwm_state) : io Z :=
  val <- readl MX3_PWMPR ;;
  cr <- readl MX3_PWMCR ;;
  let period_us := apply_period_us (s32 val) cr in
  let c := apply_margin in
  local_irq_save ;;
  sr <- readl_relaxed MX3_PWMSR ;;
  let val := FIELD_GET MX3_PWMSR_FIFOAV sr in
  apply_erratum cu period_us c cr val ;;
  writel_relaxed (duty_cycles cu) MX3_PWMSAR ;;
  local_irq_restore ;;
  writel (period_cycles cu) MX3_PWMPR ;;
  (* Store the duty cycle for future reference in cases where the
     MX3_PWMSAR register can't be read (i.e. when the PWM is disabled). *)
  set_duty_cycle (duty_cycles cu) ;;
  writel (apply_cr (prescale cu) st) MX3_PWMCR ;;
  when (negb (enabled st)) clk_bulk_disable_unprepare ;;
  ret 0.

Definition pwm_imx27_apply (pwm : pwm_device) (st : pwm_state) : io Z :=
  let cu := apply_counter_units st in
  (* Wait for a free FIFO slot if the PWM is already enabled, and flush
     the FIFO if the PWM was disabled and is about to be enabled. *)
  if enabled (state pwm) then
    pwm_imx27_wait_fifo_slot pwm ;;
    apply_commit cu st
  else
    r <- clk_bulk_prepare_enable ;;
    if negb (r =? 0) then ret r
    else
      pwm_imx27_sw_reset ;;
      apply_commit cu st.

End Driver.

(** ** Reading traces *)

(** The values written to, and read from, one register, in order. *)
Fixpoint writes_to (reg : Z) (tr : list event) : list Z :=
  match tr with
  | [] => []
  | EvWritel r v :: tr' =>
      if r =? reg then v :: writes_to reg tr' else writes_to reg tr'
  | _ :: tr' => writes_to reg tr'
  end.

Fixpoint reads_of (reg : Z) (tr : list event) : list Z :=
  match tr with
  | [] => []
  | EvReadl r v :: tr' =>
      if r =? reg then v :: reads_of reg tr' else reads_of reg tr'
  | _ :: tr' => reads_of reg tr'
  end.

Definition is_write (e : event) : bool :=
  match e with EvWritel _ _ => true | _ => false end.

Definition is_clk_enable (e : event) : bool :=
  match e with EvClkPrepareEnable _ => true | _ => false end.

(** The events only the FIFO wait produces: the sleep and its warning. *)
Definition is_fifo_wait (e : event) : bool :=
  match e with
  | EvMsleep _ => true
  | EvDevWarn msg => String.eqb msg "there is no free FIFO slot"
  | _ => false
  end.

Definition no_writes (tr : list event) : bool :=
  forallb (fun e => negb (is_write e)) tr.

Definition last_opt {A} (l : list A) : option A :=
  match rev l with [] => None | x :: _ => Some x end.

(** The events a computation appends to the trace it starts from. *)
Definition events_of {A} (c : io A) (m : machine) : list event :=
  skipn (List.length (trace m)) (trace (snd (c m))).

(** [c], started in [m], yields [a], appends [ev] and leaves the chip
    data [chip']. *)
Definition runs {A} (c : io A) (m : machine) (a : A) (ev : list event)
  (chip' : pwm_imx27_chip) : Prop :=
  c m = (a, mk_machine (trace m ++ ev) chip').

(** ** Trace semantics: the events of each procedure *)

Definition swr_set (cr : Z) : bool := negb (Z.land cr MX3_PWMCR_SWR =? 0).
Definition en_set (cr : Z) : bool := negb (Z.land cr MX3_PWMCR_EN =? 0).

(** The events of a run of polls that read the values [polls]. *)
Definition poll_events (polls : list Z) : list event :=
  flat_map (fun cr => [EvUsleepRange 200 1000; EvReadl MX3_PWMCR cr]) polls.

(** What a software reset adds to the trace: the write of the reset bit,
    the polls, and the warning when the last poll still shows the bit. *)
Definition sw_reset_events (polls : list Z) (cr : Z) : list event :=
  EvWritel MX3_PWMCR MX3_PWMCR_SWR
  :: poll_events (polls ++ [cr])
  ++ (if swr_set cr then [EvDevWarn "software reset timeout"] else []).

Definition fifoav (sr : Z) : Z := FIELD_GET MX3_PWMSR_FIFOAV sr.

(** The counter, read as [val], is in the erratum window: the value of
    the condition under which the old sample is written first. *)
Definition in_erratum_window (cu : counter_units) (c old cnr : Z) : bool :=
  let val := s32 cnr in
  ((u64 (val + c) >=? duty_cycles cu) && (u32 val <? old))
  || (u64 (val + c) >=? period_cycles cu).

(** The events from the read of the period register to the end of
    [pwm_imx27_apply]: [pr], [cr] and [sr] are the values read, [guard]
    what the erratum workaround added. *)
Definition commit_events (cu : counter_units) (st : pwm_state)
  (pr cr sr : Z) (guard : list event) : list event :=
  [EvReadl MX3_PWMPR pr; EvReadl MX3_PWMCR cr; EvIrqSave;
   EvReadl MX3_PWMSR sr]
  ++ guard
  ++ [EvWritel MX3_PWMSAR (u32 (duty_cycles cu)); EvIrqRestore;
      EvWritel MX3_PWMPR (u32 (period_cycles cu));
      EvWritel MX3_PWMCR (apply_cr (prescale cu) st)]
  ++ (if enabled st then [] else [EvClkDisableUnprepare]).

(** The conversion [pwm_imx27_get_state] applies to the period and to the
    duty cycle: [cycles] periods of the prescaled clock in nanoseconds,
    rounded up. *)
Definition cycles_to_ns (prescaler pwm_clk cycles : Z) : Z :=
  DIV_ROUND_UP_ULL (u64 (NSEC_PER_SEC * u64 cycles * prescaler)) pwm_clk.

(** The bits of the control word outside the prescaler, polarity and
    enable fields. *)
Definition apply_cr_fixed : Z :=
  Z.lor (Z.lor (Z.lor (Z.lor MX3_PWMCR_STOPEN MX3_PWMCR_DOZEN)
    MX3_PWMCR_WAITEN) MX3_PWMCR_DBGEN)
    (FIELD_PREP MX3_PWMCR_CLKSRC MX3_PWMCR_CLKSRC_IPG_HIGH).

Definition apply_cr_variable : Z :=
  Z.lor (Z.lor MX3_PWMCR_PRESCALER MX3_PWMCR_POUTC) MX3_PWMCR_EN.

Section TraceSemantics.

Variable hw : platform.

(** [v] is a value the device returned for a read of [reg]. *)
Definition from_device (reg v : Z) : Prop :=
  exists tr, v = u32 (mmio hw tr reg).

(** How the polled values arise: [polls] are the reads that sent the loop
    round again, [cr] the read it stopped at. *)
Definition reset_facts (polls : list Z) (cr : Z) : Prop :=
  (List.length polls <= 5)%nat
  /\ Forall (fun v => swr_set v = true) polls
  /\ (swr_set cr = true -> List.length polls = 5%nat)
  /\ Forall (from_device MX3_PWMCR) (polls ++ [cr]).

Definition wait_fifo_slot_events (pwm : pwm_device) (tr : list event)
  : list event :=
  let sr1 := u32 (mmio hw tr MX3_PWMSR) in
  if fifoav sr1 =? MX3_PWMSR_FIFOAV_4WORDS then
    let ms := u32 (DIV_ROUND_UP_ULL (period (state pwm)) NSEC_PER_MSEC) in
    let sr2 :=
      u32 (mmio hw (tr ++ [EvReadl MX3_PWMSR sr1; EvMsleep ms]) MX3_PWMSR) in
    [EvReadl MX3_PWMSR sr1; EvMsleep ms; EvReadl MX3_PWMSR sr2]
    ++ (if fifoav sr1 =? fifoav sr2
        then [EvDevWarn "there is no free FIFO slot"] else [])
  else [EvReadl MX3_PWMSR sr1].

(** The possible outcomes of the workaround, by the branch taken: [old]
    is the cached duty cycle, [val] the FIFO level. *)
Inductive erratum_guard (cu : counter_units) (period_us c cr val old : Z)
  : list event -> Prop :=
| guard_not_needed :
    (duty_cycles cu <? old) && en_set cr = false ->
    erratum_guard cu period_us c cr val old []
| guard_best_effort :
    duty_cycles cu < old -> en_set cr = true ->
    period_us < 2 ->
    erratum_guard cu period_us c cr val old
      [EvUdelay (ulong (plat_abi hw) (3 * period_us));
       EvWritel MX3_PWMSAR (u32 old); EvWritel MX3_PWMSAR (u32 old)]
| guard_fifo_filled :
    duty_cycles cu < old -> en_set cr = true ->
    2 <= period_us -> MX3_PWMSR_FIFOAV_2WORDS <= val ->
    erratum_guard cu period_us c cr val old []
| guard_in_window cnr :
    duty_cycles cu < old -> en_set cr = true ->
    2 <= period_us -> val < MX3_PWMSR_FIFOAV_2WORDS ->
    from_device MX3_PWMCNR cnr ->
    in_erratum_window cu c old cnr = true ->
    erratum_guard cu period_us c cr val old
      [EvReadl MX3_PWMCNR cnr; EvWritel MX3_PWMSAR (u32 old)]
| guard_out_of_window cnr :
    duty_cycles cu < old -> en_set cr = true ->
    2 <= period_us -> val < MX3_PWMSR_FIFOAV_2WORDS ->
    from_device MX3_PWMCNR cnr ->
    in_erratum_window cu c old cnr = false ->
    erratum_guard cu period_us c cr val old [EvReadl MX3_PWMCNR cnr].

(** How the values in [commit_events] arise: the three reads come from the
    device, and [guard] is an outcome of the workaround for them and the
    cached duty cycle [old]. *)
Definition commit_facts (cu : counter_units) (old pr cr sr : Z)
  (guard : list event) : Prop :=
  from_device MX3_PWMPR pr
  /\ from_device MX3_PWMCR cr
  /\ from_device MX3_PWMSR sr
  /\ erratum_guard cu (apply_period_us hw (s32 pr) cr) (apply_margin hw)
       cr (fifoav sr) old guard.

(** The three ways through [pwm_imx27_apply]: the PWM was running, the
    clocks could not be enabled, or the PWM was stopped and is reset
    first. *)
Inductive apply_run (pwm : pwm_device) (st : pwm_state) (m : machine)
  : Z -> list event -> pwm_imx27_chip -> Prop :=
| apply_running pr cr sr guard :
    enabled (state pwm) = true ->
    commit_facts (apply_counter_units hw st) (u32 (imx_duty_cycle (imx m)))
                 pr cr sr guard ->
    apply_run pwm st m 0
      (wait_fifo_slot_events pwm (trace m)
       ++ commit_events (apply_counter_units hw st) st pr cr sr guard)
      (mk_chip (u32 (duty_cycles (apply_counter_units hw st))))
| apply_clk_failed r :
    enabled (state pwm) = false ->
    r = s32 (clk_enable_result hw (trace m)) -> r <> 0 ->
    apply_run pwm st m r [EvClkPrepareEnable r] (imx m)
| apply_starting polls cr0 pr cr sr guard :
    enabled (state pwm) = false ->
    s32 (clk_enable_result hw (trace m)) = 0 ->
    reset_facts polls cr0 ->
    commit_facts (apply_counter_units hw st) (u32 (imx_duty_cycle (imx m)))
                 pr cr sr guard ->
    apply_run pwm st m 0
      (EvClkPrepareEnable 0 :: sw_reset_events polls cr0
       ++ commit_events (apply_counter_units hw st) st pr cr sr guard)
      (mk_chip (u32 (duty_cycles (apply_counter_units hw st)))).

(** [v] was read from [reg] after the history [tr0] and some further
    events, none of them a register write. *)
Definition read_after (tr0 : list event) (reg v : Z) : Prop :=
  exists tr', no_writes tr' = true /\ v = u32 (mmio hw (tr0 ++ tr') reg).

(** What a successful [pwm_imx27_get_state] returns, from the values it
    read: [cr] from the control register, [pr] from the period register and
    [sar], if the PWM is enabled, from the sample register. *)
Definition get_state_result (st0 : pwm_state) (cached cr pr sar : Z)
  : pwm_state :=
  let prescaler := u32 (MX3_PWMCR_PRESCALER_GET cr) in
  let pwm_clk := u32 (clk_get_rate hw) in
  let field := FIELD_GET MX3_PWMCR_POUTC cr in
  mk_pwm_state
    (cycles_to_ns prescaler pwm_clk
       (u32 ((if pr >=? MX3_PWMPR_MAX then MX3_PWMPR_MAX else pr) + 2)))
    (cycles_to_ns prescaler pwm_clk (if en_set cr then sar else cached))
    (if field =? MX3_PWMCR_POUTC_NORMAL then PWM_POLARITY_NORMAL
     else if field =? MX3_PWMCR_POUTC_INVERTED then PWM_POLARITY_INVERSED
     else polarity st0)
    (en_set cr).

(** [period_cycles] before the division by the prescaler. *)
Definition raw_period_cycles (st : pwm_state) : Z :=
  ulong (plat_abi hw)
        (do_div (u64 (apply_clkrate hw * u64 (period st))) NSEC_PER_SEC).

Definition raw_duty_cycles (st : pwm_state) : Z :=
  ulong (plat_abi hw)
        (do_div (u64 (apply_clkrate hw * u64 (duty_cycle st))) NSEC_PER_SEC).

End TraceSemantics.

(** After the history [tr0], and as long as the driver writes no register,
    the device answers reads of [reg] with [v]. *)
Definition holds_after (hw : platform) (tr0 : list event) (reg v : Z)
  : Prop :=
  forall tr', no_writes tr' = true -> u32 (mmio hw (tr0 ++ tr') reg) = v.

(** ** Concrete devices and requests *)

(** A device that answers every read of a register with the same value. *)
Definition steady_mmio (pwmcr pwmsr pwmsar pwmpr pwmcnr : Z)
  (tr : list event) (reg : Z) : Z :=
  if reg =? MX3_PWMCR then pwmcr
  else if reg =? MX3_PWMSR then pwmsr
  else if reg =? MX3_PWMSAR then pwmsar
  else if reg =? MX3_PWMPR then pwmpr
  else if reg =? MX3_PWMCNR then pwmcnr
  else 0.

(** A 64-bit part whose reset bit never clears; the clocks work. *)
Definition stuck_reset_hw : platform :=
  mk_platform LP64 66000000 (fun _ => 0)
    (steady_mmio MX3_PWMCR_SWR 0 0 0 0).

Definition fresh_machine : machine := mk_machine [] (mk_chip 0).

(** A 32-bit part whose clocks cannot be enabled (-EIO). *)
Definition no_clock_hw : platform :=
  mk_platform ILP32 66000000 (fun _ => -5) (steady_mmio 0 0 0 0 0).

(** A running 64-bit part at 66 MHz with an empty FIFO. *)
Definition running_hw : platform :=
  mk_platform LP64 66000000 (fun _ => 0)
    (steady_mmio MX3_PWMCR_EN 0 0 5000 150).

Definition stopped_pwm : pwm_device :=
  mk_pwm_device (mk_pwm_state 0 0 PWM_POLARITY_NORMAL false).
Definition running_pwm : pwm_device :=
  mk_pwm_device (mk_pwm_state 1000000 500000 PWM_POLARITY_NORMAL true).
Definition half_duty : pwm_state :=
  mk_pwm_state 1000000 500000 PWM_POLARITY_NORMAL true.

(** A device whose registers read back the last value written, 0 before
    the first write. *)
Definition regfile_mmio (tr : list event) (reg : Z) : Z :=
  match last_opt (writes_to reg tr) with Some v => v | None => 0 end.

Definition regfile_hw (a : abi) (rate : Z) : platform :=
  mk_platform a rate (fun _ => 0) regfile_mmio.

(** The running part of the erratum scenario at a given clock rate: PWM
    enabled, FIFO empty, period register 5000, counter at 150. *)
Definition scenario_hw (rate : Z) : platform :=
  mk_platform LP64 rate (fun _ => 0) (steady_mmio MX3_PWMCR_EN 0 0 5000 150).

(** The same with a full FIFO. *)
Definition fifo_full_hw : platform :=
  mk_platform LP64 66000000 (fun _ => 0)
    (steady_mmio MX3_PWMCR_EN MX3_PWMSR_FIFOAV_4WORDS 0 5000 150).

(** Cached duty cycle 1000. *)
Definition scenario_machine : machine := mk_machine [] (mk_chip 1000).

(** 5002 and 200 cycles at 66 MHz, and at 24 MHz. *)
Definition scenario_66MHz : pwm_state :=
  mk_pwm_state 75800 3031 PWM_POLARITY_NORMAL true.
Definition scenario_24MHz : pwm_state :=
  mk_pwm_state 208417 8334 PWM_POLARITY_NORMAL true.

Definition full_duty : pwm_state :=
  mk_pwm_state 1000000 1000000 PWM_POLARITY_NORMAL true.
(** A period whose product with 66 MHz exceeds 2^64, and one of 70 s,
    whose cycles at 66 MHz exceed 2^32. *)
Definition overflowing_period : pwm_state :=
  mk_pwm_state 279496122329 1000000000 PWM_POLARITY_NORMAL true.
Definition seventy_seconds : pwm_state :=
  mk_pwm_state 70000000000 60000000000 PWM_POLARITY_NORMAL true.
Definition short_period : pwm_state :=
  mk_pwm_state 500 0 PWM_POLARITY_NORMAL true.
Definition long_period : pwm_state :=
  mk_pwm_state 5000000000 2500000000 PWM_POLARITY_NORMAL true.
Definition inversed_off : pwm_state :=
  mk_pwm_state 1000000 250000 PWM_POLARITY_INVERSED false.

(** get_state after apply, from a stopped PWM with nothing cached. *)
Definition round_trip (hw : platform) (st : pwm_state) : pwm_state :=
  snd (fst (pwm_imx27_get_state hw stopped_pwm.(state)
              (snd (pwm_imx27_apply hw stopped_pwm st fresh_machine)))).

(** ** pwm_imx27_probe *)

(** A pointer that is valid or, as IS_ERR and PTR_ERR read it, an errno. *)
Inductive ptr_result := PtrValid | PtrErr (errno : Z).

(** What the device core answers during the probe: the chip allocation,
    the clock lookup, the mapping of the register window and the
    registration of the chip. *)
Record probe_resources := mk_probe_resources {
  devm_pwmchip_alloc : ptr_result;
  devm_clk_bulk_get : Z;
  devm_platform_ioremap_resource : ptr_result;
  devm_pwmchip_add : Z
}.

(** [dev_err_probe] hands back [err]; what it logs depends on [err] and is
    not part of the trace. *)
Definition dev_err_probe (err : Z) (msg : string) : io Z := ret err.

Section Probe.

Variable hw : platform.

(** The chip data comes from the allocator; the probe fills in the clock
    names, the operations and the register window, which the environment
    holds, and does not assign the cached duty cycle. *)
Definition pwm_imx27_probe (res : probe_resources) : io Z :=
  match devm_pwmchip_alloc res with
  | PtrErr e => ret e
  | PtrValid =>
      let r := devm_clk_bulk_get res in
      if negb (r =? 0) then dev_err_probe r "getting clocks failed"
      else
        match devm_platform_ioremap_resource res with
        | PtrErr e => ret e
        | PtrValid =>
            r <- clk_bulk_prepare_enable hw ;;
            if negb (r =? 0) then ret r
            else
              (* keep clks on if pwm is running *)
              pwmcr <- readl hw MX3_PWMCR ;;
              when (Z.land pwmcr MX3_PWMCR_EN =? 0)
                   (clk_bulk_disable_unprepare) ;;
              ret (devm_pwmchip_add res)
        end
  end.

End Probe.

(** ** Measures on traces *)

(** The clock references a trace takes and gives back: a clock enable that
    returned 0 takes one, a disable gives one back. *)
Definition clk_delta (e : event) : Z :=
  match e with
  | EvClkPrepareEnable 0 => 1
  | EvClkDisableUnprepare => -1
  | _ => 0
  end.

Definition clk_balance (tr : list event) : Z :=
  fold_right (fun e n => clk_delta e + n) 0 tr.

(** The register writes of a trace, as (register, value), in order. *)
Fixpoint reg_writes (tr : list event) : list (Z * Z) :=
  match tr with
  | [] => []
  | EvWritel r v :: tr' => (r, v) :: reg_writes tr'
  | _ :: tr' => reg_writes tr'
  end.

(** The register accesses of a trace, reads and writes, by register. *)
Fixpoint reg_accesses (tr : list event) : list Z :=
  match tr with
  | [] => []
  | EvReadl r _ :: tr' => r :: reg_accesses tr'
  | EvWritel r _ :: tr' => r :: reg_accesses tr'
  | _ :: tr' => reg_accesses tr'
  end.

Definition is_irq (e : event) : bool :=
  match e with EvIrqSave | EvIrqRestore => true | _ => false end.

(** What may happen with interrupts off: register accesses and a busy
    wait of at most 3 microseconds. *)
Definition atomic_ok (e : event) : bool :=
  match e with
  | EvReadl _ _ | EvWritel _ _ => true
  | EvUdelay us => (0 <=? us) && (us <=? 3)
  | _ => false
  end.

(** The sleeps of a trace: [msleep] and [usleep_range] give up the
    processor, [udelay] does not. *)
Definition is_sleep (e : event) : bool :=
  match e with EvMsleep _ | EvUsleepRange _ _ => true | _ => false end.

Definition sleeps (tr : list event) : list event := filter is_sleep tr.

Definition b2z (b : bool) : Z := if b then 1 else 0.

(** A stopped 64-bit part at 66 MHz: the control register reads 0. *)
Definition stopped_hw : platform :=
  mk_platform LP64 66000000 (fun _ => 0) (steady_mmio 0 0 0 0 0).

(** A running part whose output is disconnected (POUTC = 2). *)
Definition disconnected_hw : platform :=
  mk_platform LP64 66000000 (fun _ => 0)
    (steady_mmio (Z.lor MX3_PWMCR_EN
                    (FIELD_PREP MX3_PWMCR_POUTC MX3_PWMCR_POUTC_OFF))
                 0 100 0xffff 0).

Definition all_resources : probe_resources :=
  mk_probe_resources PtrValid 0 PtrValid 0.
Definition no_clocks_found : probe_resources :=
  mk_probe_resources PtrValid (-2) PtrValid 0.

(** * Properties *)

(** ** Running computations *)

Lemma runs_events {A} (c : io A) m a ev chip' :
  runs c m a ev chip' -> events_of c m = ev.
Proof.
  unfold runs, events_of. intros ->. simpl.
  rewrite skipn_app, skipn_all, Nat.sub_diag. reflexivity.
Qed.

Lemma runs_result {A} (c : io A) m a ev chip' :
  runs c m a ev chip' -> fst (c m) = a /\ imx (snd (c m)) = chip'.
Proof. unfold runs. intros ->. split; reflexivity. Qed.

Lemma runs_ret {A} (a : A) m : runs (ret a) m a [] (imx m).
Proof. unfold runs, ret. rewrite app_nil_r. destruct m; reflexivity. Qed.

Lemma runs_bind {A B} (c : io A) (k : A -> io B) m a ev1 chip1 b ev2 chip2 :
  runs c m a ev1 chip1 ->
  runs (k a) (mk_machine (trace m ++ ev1) chip1) b ev2 chip2 ->
  runs (bind c k) m b (ev1 ++ ev2) chip2.
Proof.
  unfold runs, bind. intros -> ->. simpl. rewrite app_assoc. reflexivity.
Qed.

Lemma writes_to_app reg tr1 tr2 :
  writes_to reg (tr1 ++ tr2) = writes_to reg tr1 ++ writes_to reg tr2.
Proof.
  induction tr1 as [|e tr1 IH]; simpl; [reflexivity|].
  destruct e; try apply IH. destruct (reg0 =? reg); simpl; now rewrite IH.
Qed.

Lemma reads_of_app reg tr1 tr2 :
  reads_of reg (tr1 ++ tr2) = reads_of reg tr1 ++ reads_of reg tr2.
Proof.
  induction tr1 as [|e tr1 IH]; simpl; [reflexivity|].
  destruct e; try apply IH. destruct (reg0 =? reg); simpl; now rewrite IH.
Qed.

Lemma last_opt_app {A} (l : list A) x : last_opt (l ++ [x]) = Some x.
Proof. unfold last_opt. rewrite rev_app_distr. reflexivity. Qed.

(** ** Integer conversions *)

Lemma u32_range x : 0 <= u32 x < 2 ^ 32.
Proof. apply Z.mod_pos_bound. lia. Qed.

Lemma u64_range x : 0 <= u64 x < 2 ^ 64.
Proof. apply Z.mod_pos_bound. lia. Qed.

Lemma ulong_range a x : 0 <= ulong a x < 2 ^ BITS_PER_LONG a.
Proof. apply Z.mod_pos_bound. destruct a; simpl; lia. Qed.

Lemma u32_small x : 0 <= x < 2 ^ 32 -> u32 x = x.
Proof. apply Z.mod_small. Qed.

Lemma u64_small x : 0 <= x < 2 ^ 64 -> u64 x = x.
Proof. apply Z.mod_small. Qed.

Lemma ulong_small a x : 0 <= x < 2 ^ 32 -> ulong a x = x.
Proof. intros H. apply Z.mod_small. destruct a; simpl; lia. Qed.

Lemma u32_idem x : u32 (u32 x) = u32 x.
Proof. apply u32_small, u32_range. Qed.

(** ** Trace semantics of the driver's procedures *)

Section Semantics.

Variable hw : platform.

(** *** The reset loop *)

Lemma sw_reset_loop_step wait_count m :
  sw_reset_loop hw wait_count m =
  let (cr, m') := sw_reset_poll hw m in
  if swr_set cr && (wait_count <? MX3_PWM_SWR_LOOP)
  then sw_reset_loop hw (wait_count + 1) m' else (cr, m').
Proof.
  rewrite sw_reset_loop_equation_1.
  destruct (sw_reset_poll hw m) as [cr m']. simpl.
  unfold swr_set.
  destruct (sumbool_of_bool _) as [e|e]; simpl; rewrite e; reflexivity.
Qed.

Lemma sw_reset_poll_runs m :
  let cr := u32 (mmio hw (trace m ++ [EvUsleepRange 200 1000]) MX3_PWMCR) in
  runs (sw_reset_poll hw) m cr (poll_events [cr]) (imx m).
Proof.
  unfold runs, sw_reset_poll, bind, usleep_range, emit, readl. simpl.
  rewrite <- app_assoc. reflexivity.
Qed.

Lemma sw_reset_loop_runs n : forall wait_count m,
  retries_left wait_count = n ->
  exists polls cr,
    runs (sw_reset_loop hw wait_count) m cr
         (poll_events (polls ++ [cr])) (imx m)
    /\ (List.length polls <= n)%nat
    /\ Forall (fun v => swr_set v = true) polls
    /\ (swr_set cr = true -> List.length polls = n)
    /\ Forall (from_device hw MX3_PWMCR) (polls ++ [cr]).
Proof.
  induction n as [|n IH]; intros wc m Hn;
    pose proof (sw_reset_poll_runs m) as Hp; unfold runs in Hp;
    set (cr0 := u32 _) in Hp.
  - exists [], cr0. unfold runs.
    rewrite sw_reset_loop_step, Hp.
    assert ((wc <? MX3_PWM_SWR_LOOP) = false) as ->.
    { apply Z.ltb_ge. unfold retries_left in Hn. lia. }
    rewrite andb_false_r. repeat split; auto.
    constructor; [eexists; reflexivity|constructor].
  - assert ((wc <? MX3_PWM_SWR_LOOP) = true) as Hlt.
    { apply Z.ltb_lt. unfold retries_left in Hn. lia. }
    destruct (swr_set cr0) eqn:Hs.
    + destruct (IH (wc + 1)
                  (mk_machine (trace m ++ poll_events [cr0]) (imx m)))
        as (polls & cr & Hr & Hlen & Hall & Hlast & Hdev).
      { unfold retries_left in *. lia. }
      exists (cr0 :: polls), cr. unfold runs in *.
      rewrite sw_reset_loop_step, Hp, Hs, Hlt. simpl andb. cbv iota.
      rewrite Hr. simpl. rewrite <- app_assoc. simpl.
      split; [reflexivity|]. split; [lia|].
      split; [constructor; assumption|].
      split; [intros H; rewrite (Hlast H); reflexivity|].
      constructor; [eexists; reflexivity | exact Hdev].
    + exists [], cr0. unfold runs.
      rewrite sw_reset_loop_step, Hp, Hs. simpl.
      repeat split; auto; try lia; try congruence.
      constructor; [eexists; reflexivity|constructor].
Qed.

Lemma sw_reset_runs m :
  exists polls cr,
    runs (pwm_imx27_sw_reset hw) m tt (sw_reset_events polls cr) (imx m)
    /\ reset_facts hw polls cr.
Proof.
  destruct (sw_reset_loop_runs 5 0
              (mk_machine (trace m ++ [EvWritel MX3_PWMCR MX3_PWMCR_SWR])
                          (imx m)) eq_refl)
    as (polls & cr & Hr & Hrest).
  exists polls, cr. split; [|exact Hrest].
  unfold runs in *. unfold pwm_imx27_sw_reset, bind, writel, emit.
  change (u32 MX3_PWMCR_SWR) with MX3_PWMCR_SWR.
  rewrite Hr. cbn [trace imx]. unfold sw_reset_events, swr_set.
  destruct (negb _); unfold when, dev_warn, emit, ret; cbn [trace imx];
    rewrite <- ?app_assoc; simpl; rewrite ?app_nil_r; reflexivity.
Qed.

(** *** Waiting for a FIFO slot *)

Lemma wait_fifo_slot_runs pwm m :
  runs (pwm_imx27_wait_fifo_slot hw pwm) m tt
       (wait_fifo_slot_events hw pwm (trace m)) (imx m).
Proof.
  unfold runs, pwm_imx27_wait_fifo_slot, wait_fifo_slot_events, fifoav,
    bind, readl, msleep, emit. cbn [trace imx].
  destruct (_ =? MX3_PWMSR_FIFOAV_4WORDS); [|reflexivity].
  cbn [trace imx]. rewrite <- !app_assoc. cbn [app].
  destruct (_ =? _); unfold when, dev_warn, emit, ret; cbn [trace imx];
    rewrite <- ?app_assoc; reflexivity.
Qed.

End Semantics.

Section ApplySemantics.

Variable hw : platform.

(** *** The erratum workaround *)

Lemma apply_erratum_runs cu period_us c cr val m :
  exists ev,
    runs (apply_erratum hw cu period_us c cr val) m tt ev (imx m)
    /\ erratum_guard hw cu period_us c cr val (u32 (imx_duty_cycle (imx m))) ev.
Proof.
  unfold runs, apply_erratum, bind, get_duty_cycle.
  set (old := u32 _).
  destruct (duty_cycles cu <? old) eqn:Hlt; cbn [andb].
  2:{ exists []. split; [apply runs_ret | apply guard_not_needed].
      now rewrite Hlt. }
  apply Z.ltb_lt in Hlt.
  fold (en_set cr). destruct (en_set cr) eqn:Hen.
  2:{ exists []. split; [apply runs_ret | apply guard_not_needed].
      now rewrite Hen, andb_false_r. }
  destruct (period_us <? 2) eqn:Hp.
  { apply Z.ltb_lt in Hp. eexists. split; [|now apply guard_best_effort].
    unfold udelay, writel_relaxed, writel, emit. cbn [trace imx].
    rewrite <- !app_assoc. reflexivity. }
  apply Z.ltb_ge in Hp.
  destruct (val <? MX3_PWMSR_FIFOAV_2WORDS) eqn:Hv.
  2:{ apply Z.ltb_ge in Hv. exists [].
      split; [apply runs_ret | now apply guard_fifo_filled]. }
  apply Z.ltb_lt in Hv.
  unfold readl_relaxed, readl. cbn [trace imx].
  set (cnr := u32 (mmio hw (trace m) MX3_PWMCNR)).
  fold (in_erratum_window cu c old cnr).
  destruct (in_erratum_window cu c old cnr) eqn:Hw.
  - exists [EvReadl MX3_PWMCNR cnr; EvWritel MX3_PWMSAR (u32 old)].
    split.
    + unfold when, writel_relaxed, writel, emit. cbn [trace imx].
      rewrite <- !app_assoc. reflexivity.
    + apply guard_in_window; auto. now exists (trace m).
  - exists [EvReadl MX3_PWMCNR cnr]. split.
    + reflexivity.
    + apply guard_out_of_window; auto. now exists (trace m).
Qed.

(** *** The commit *)

Lemma apply_commit_runs cu st m :
  exists pr cr sr guard,
    runs (apply_commit hw cu st) m 0 (commit_events cu st pr cr sr guard)
         (mk_chip (u32 (duty_cycles cu)))
    /\ commit_facts hw cu (u32 (imx_duty_cycle (imx m))) pr cr sr guard.
Proof.
  unfold runs, apply_commit, bind, readl_relaxed, readl, local_irq_save, emit.
  cbv beta iota zeta. cbn [trace imx].
  match goal with
  | |- context [apply_erratum hw ?c1 ?p ?c ?cr ?v ?m'] =>
      destruct (apply_erratum_runs c1 p c cr v m') as (guard & Hg & Hspec)
  end.
  unfold runs in Hg. cbn [trace imx] in Hg, Hspec.
  rewrite Hg. clear Hg.
  set (pr := u32 (mmio hw (trace m) MX3_PWMPR)) in *.
  set (cr := u32 (mmio hw (trace m ++ [EvReadl MX3_PWMPR pr]) MX3_PWMCR)) in *.
  set (sr := u32 (mmio hw _ MX3_PWMSR)) in *.
  exists pr, cr, sr, guard.
  split; [|split; [now exists (trace m)|split; [now eexists|
           split; [now eexists|exact Hspec]]]].
  unfold commit_events, writel_relaxed, writel, local_irq_restore,
    set_duty_cycle, when, clk_bulk_disable_unprepare, emit, ret.
  cbn [trace imx]. unfold apply_cr at 1. rewrite u32_idem.
  fold (apply_cr (prescale cu) st).
  destruct (enabled st); cbn [negb trace imx];
    rewrite <- ?app_assoc; cbn [app]; rewrite ?app_nil_r; reflexivity.
Qed.

(** *** The whole of apply *)

Lemma apply_runs pwm st m :
  exists r ev chip',
    runs (pwm_imx27_apply hw pwm st) m r ev chip'
    /\ apply_run hw pwm st m r ev chip'.
Proof.
  unfold pwm_imx27_apply.
  destruct (enabled (state pwm)) eqn:Hen.
  - pose proof (wait_fifo_slot_runs hw pwm m) as Hw.
    destruct (apply_commit_runs (apply_counter_units hw st) st
                (mk_machine (trace m ++ wait_fifo_slot_events hw pwm (trace m))
                            (imx m)))
      as (pr & cr & sr & guard & Hc & Hf).
    do 3 eexists. split.
    + eapply runs_bind; [exact Hw | exact Hc].
    + now apply apply_running.
  - destruct (s32 (clk_enable_result hw (trace m)) =? 0) eqn:Hr.
    + apply Z.eqb_eq in Hr.
      set (m1 := mk_machine (trace m ++ [EvClkPrepareEnable 0]) (imx m)).
      destruct (sw_reset_runs hw m1) as (polls & cr0 & Hs & Hsf).
      destruct (apply_commit_runs (apply_counter_units hw st) st
                  (mk_machine (trace m1 ++ sw_reset_events polls cr0)
                              (imx m1)))
        as (pr & cr & sr & guard & Hc & Hf).
      do 3 eexists. split.
      * eapply (runs_bind _ _ m 0 [EvClkPrepareEnable 0]).
        { unfold runs, clk_bulk_prepare_enable. rewrite Hr. reflexivity. }
        cbn [Z.eqb negb]. eapply runs_bind; [exact Hs | exact Hc].
      * now apply apply_starting.
    + apply Z.eqb_neq in Hr.
      do 3 eexists. split.
      * eapply (runs_bind _ _ m _ [EvClkPrepareEnable _] (imx m) _ []).
        { reflexivity. }
        apply Z.eqb_neq in Hr. rewrite Hr. cbn [negb].
        unfold runs, ret. cbn [trace imx]. rewrite app_nil_r. reflexivity.
      * now apply apply_clk_failed.
Qed.

End ApplySemantics.

(** ** Reading the events of the procedures *)

Section TraceFacts.

Variable hw : platform.

Lemma writes_to_poll_events reg polls : writes_to reg (poll_events polls) = [].
Proof. induction polls as [|cr polls IH]; [reflexivity | exact IH]. Qed.

Lemma reads_of_poll_events polls :
  reads_of MX3_PWMCR (poll_events polls) = polls.
Proof.
  induction polls as [|cr polls IH]; [reflexivity|].
  simpl. now rewrite IH.
Qed.

Lemma writes_to_sw_reset reg polls cr :
  writes_to reg (sw_reset_events polls cr)
  = if MX3_PWMCR =? reg then [MX3_PWMCR_SWR] else [].
Proof.
  unfold sw_reset_events. cbn [writes_to].
  rewrite writes_to_app, writes_to_poll_events.
  destruct (swr_set cr), (MX3_PWMCR =? reg); reflexivity.
Qed.

Lemma reads_of_sw_reset polls cr :
  reads_of MX3_PWMCR (sw_reset_events polls cr) = polls ++ [cr].
Proof.
  unfold sw_reset_events. cbn [reads_of].
  rewrite reads_of_app, reads_of_poll_events.
  destruct (swr_set cr); cbn; now rewrite app_nil_r.
Qed.

Lemma writes_to_wait_fifo_slot reg pwm tr :
  writes_to reg (wait_fifo_slot_events hw pwm tr) = [].
Proof.
  unfold wait_fifo_slot_events.
  destruct (_ =? MX3_PWMSR_FIFOAV_4WORDS); [|reflexivity].
  cbn. destruct (_ =? _); reflexivity.
Qed.

Lemma reads_cr_wait_fifo_slot pwm tr :
  reads_of MX3_PWMCR (wait_fifo_slot_events hw pwm tr) = [].
Proof.
  unfold wait_fifo_slot_events.
  destruct (_ =? MX3_PWMSR_FIFOAV_4WORDS); [|reflexivity].
  cbn. destruct (_ =? _); reflexivity.
Qed.

(** The sample values the workaround writes, by outcome. *)
Lemma erratum_guard_writes cu period_us c cr val old guard :
  erratum_guard hw cu period_us c cr val old guard ->
  reads_of MX3_PWMCR guard = []
  /\ writes_to MX3_PWMPR guard = []
  /\ writes_to MX3_PWMCR guard = []
  /\ forallb (fun e => negb (is_clk_enable e)) guard = true
  /\ ((writes_to MX3_PWMSAR guard = [])
      \/ (duty_cycles cu < old /\ en_set cr = true
          /\ (writes_to MX3_PWMSAR guard = [u32 old]
              \/ writes_to MX3_PWMSAR guard = [u32 old; u32 old]))).
Proof.
  intros H. inversion H; subst; cbn; repeat split; auto.
Qed.

Lemma writes_sar_commit cu st pr cr sr guard :
  writes_to MX3_PWMSAR (commit_events cu st pr cr sr guard)
  = writes_to MX3_PWMSAR guard ++ [u32 (duty_cycles cu)].
Proof.
  unfold commit_events. rewrite !writes_to_app.
  destruct (enabled st); reflexivity.
Qed.

Lemma reads_cr_commit cu st pr cr sr guard :
  reads_of MX3_PWMCR guard = [] ->
  reads_of MX3_PWMCR (commit_events cu st pr cr sr guard) = [cr].
Proof.
  intros Hg. unfold commit_events. rewrite !reads_of_app, Hg.
  destruct (enabled st); reflexivity.
Qed.

Lemma writes_cr_commit cu st pr cr sr guard :
  writes_to MX3_PWMCR guard = [] ->
  writes_to MX3_PWMCR (commit_events cu st pr cr sr guard)
  = [apply_cr (prescale cu) st].
Proof.
  intros Hg. unfold commit_events. rewrite !writes_to_app, Hg.
  destruct (enabled st); reflexivity.
Qed.

Lemma commit_no_clk_enable cu st pr cr sr guard :
  forallb (fun e => negb (is_clk_enable e)) guard = true ->
  forallb (fun e => negb (is_clk_enable e))
          (commit_events cu st pr cr sr guard) = true.
Proof.
  intros Hg. unfold commit_events. rewrite !forallb_app, Hg.
  destruct (enabled st); reflexivity.
Qed.

Lemma wait_fifo_slot_no_clk_enable pwm tr :
  forallb (fun e => negb (is_clk_enable e))
          (wait_fifo_slot_events hw pwm tr) = true.
Proof.
  unfold wait_fifo_slot_events.
  destruct (_ =? MX3_PWMSR_FIFOAV_4WORDS); [|reflexivity].
  cbn. destruct (_ =? _); reflexivity.
Qed.

End TraceFacts.

(** ** The software reset *)

(** C8: the reset writes the whole control register, without reading it
    first, with a value in which only the reset bit is set: the enable
    bit, the output polarity, the prescaler, the clock source and the
    stop, doze, wait and debug enables are all written as 0, whatever the
    register held.  It is the only register write of the reset. *)
Theorem sw_reset_overwrites_control_register :
  forall (hw : platform) (m : machine),
    (exists rest,
        events_of (pwm_imx27_sw_reset hw) m
        = EvWritel MX3_PWMCR MX3_PWMCR_SWR :: rest
        /\ forallb (fun e => negb (is_write e)) rest = true)
    /\ Z.land MX3_PWMCR_SWR MX3_PWMCR_EN = 0
    /\ FIELD_GET MX3_PWMCR_POUTC MX3_PWMCR_SWR = 0
    /\ FIELD_GET MX3_PWMCR_PRESCALER MX3_PWMCR_SWR = 0
    /\ FIELD_GET MX3_PWMCR_CLKSRC MX3_PWMCR_SWR = 0
    /\ Z.land MX3_PWMCR_SWR MX3_PWMCR_STOPEN = 0
    /\ Z.land MX3_PWMCR_SWR MX3_PWMCR_DOZEN = 0
    /\ Z.land MX3_PWMCR_SWR MX3_PWMCR_WAITEN = 0
    /\ Z.land MX3_PWMCR_SWR MX3_PWMCR_DBGEN = 0.
Proof.
  intros hw m. split; [|repeat split].
  destruct (sw_reset_runs hw m) as (polls & cr & Hr & _).
  rewrite (runs_events _ _ _ _ _ Hr). unfold sw_reset_events.
  eexists. split; [reflexivity|].
  rewrite forallb_app. apply andb_true_iff. split.
  - induction (polls ++ [cr]) as [|v l IH]; [reflexivity | exact IH].
  - destruct (swr_set cr); reflexivity.
Qed.

(** C4, counterexample to a bound of five reads: when the reset bit never
    clears the loop reads the control register six times before it gives
    up. *)
Lemma sw_reset_polls_six_times :
  reads_of MX3_PWMCR (events_of (pwm_imx27_sw_reset stuck_reset_hw)
                                fresh_machine)
  = [8; 8; 8; 8; 8; 8]
  /\ ~ (List.length
          (reads_of MX3_PWMCR
             (events_of (pwm_imx27_sw_reset stuck_reset_hw) fresh_machine))
        <= 5)%nat.
Proof.
  assert (reads_of MX3_PWMCR
            (events_of (pwm_imx27_sw_reset stuck_reset_hw) fresh_machine)
          = [8; 8; 8; 8; 8; 8]) as H by (vm_compute; reflexivity).
  rewrite H. split; [reflexivity | simpl; lia].
Qed.

(** C4, as the code has it: the reset always returns.  After writing the
    reset bit it sleeps 200 to 1000 microseconds and reads the control
    register, at least once and at most six times (MX3_PWM_SWR_LOOP + 1);
    every read but the last showed the reset bit.  It warns of a timeout
    exactly when the last read still shows the bit, which takes six reads; a
    device whose reset bit never clears gets exactly six reads and the
    warning.  The warning is not an error, and apply proceeds: entered
    with the PWM stopped and working clocks, its events are the clock
    request, those of the reset, with the warning if the reset timed out,
    and then the rest of apply, in which it writes the new duty value to
    the sample register, the period register and the control word; it
    stores the new duty value and returns 0, whatever the polls read. *)
Theorem sw_reset_bounded :
  forall (hw : platform) (m : machine),
    (exists polls cr,
        pwm_imx27_sw_reset hw m
        = (tt, mk_machine (trace m ++ sw_reset_events polls cr) (imx m))
        /\ (1 <= List.length (polls ++ [cr]) <= 6)%nat
        /\ Forall (fun v => swr_set v = true) polls
        /\ (swr_set cr = true -> List.length (polls ++ [cr]) = 6%nat)
        /\ ((forall tr, swr_set (u32 (mmio hw tr MX3_PWMCR)) = true) ->
            List.length (polls ++ [cr]) = 6%nat
            /\ In (EvDevWarn "software reset timeout")
                  (sw_reset_events polls cr)))
    /\ (forall pwm st,
           let cu := apply_counter_units hw st in
           enabled (state pwm) = false ->
           s32 (clk_enable_result hw (trace m)) = 0 ->
           fst (pwm_imx27_apply hw pwm st m) = 0
           /\ imx (snd (pwm_imx27_apply hw pwm st m))
              = mk_chip (u32 (duty_cycles cu))
           /\ exists polls cr rest,
               events_of (pwm_imx27_apply hw pwm st) m
               = EvClkPrepareEnable 0 :: sw_reset_events polls cr ++ rest
               /\ (1 <= List.length (polls ++ [cr]) <= 6)%nat
               /\ (swr_set cr = true ->
                   In (EvDevWarn "software reset timeout")
                      (sw_reset_events polls cr))
               /\ ((forall tr, swr_set (u32 (mmio hw tr MX3_PWMCR)) = true) ->
                   List.length (polls ++ [cr]) = 6%nat
                   /\ In (EvDevWarn "software reset timeout")
                         (sw_reset_events polls cr))
               /\ last_opt (writes_to MX3_PWMSAR rest)
                  = Some (u32 (duty_cycles cu))
               /\ writes_to MX3_PWMPR rest = [u32 (period_cycles cu)]
               /\ writes_to MX3_PWMCR rest = [apply_cr (prescale cu) st]).
Proof.
  assert (forall polls cr,
             swr_set cr = true ->
             In (EvDevWarn "software reset timeout")
                (sw_reset_events polls cr)) as Hwarn.
  { intros polls cr Hcr. unfold sw_reset_events. rewrite Hcr. right.
    apply in_or_app. right. left. reflexivity. }
  intros hw m. split.
  - destruct (sw_reset_runs hw m)
      as (polls & cr & Hr & Hlen & Hall & Hlast & Hdev).
    exists polls, cr. rewrite length_app. cbn [List.length].
    split; [exact Hr|]. split; [lia|]. split; [exact Hall|].
    split; [intros H; rewrite (Hlast H); reflexivity|].
    intros Hstuck.
    assert (swr_set cr = true) as Hcr.
    { apply Forall_app in Hdev as [_ Hdev]. inversion Hdev as [|? ? [tr ->] _].
      apply Hstuck. }
    split; [rewrite (Hlast Hcr); reflexivity | apply Hwarn, Hcr].
  - intros pwm st cu Hen Hclk.
    destruct (apply_runs hw pwm st m) as (r & ev & chip' & Hr & Hrun).
    rewrite (runs_events _ _ _ _ _ Hr).
    apply runs_result in Hr as [-> ->].
    inversion Hrun as [| | polls cr0 pr cr sr guard _ _ Hreset Hf];
      subst; try congruence.
    destruct Hreset as (Hlen & _ & Hlast & Hdev).
    destruct Hf as (_ & _ & _ & Hg).
    apply erratum_guard_writes in Hg as (_ & Hgpr & Hgcr & _).
    fold cu. split; [reflexivity|]. split; [reflexivity|].
    exists polls, cr0, (commit_events cu st pr cr sr guard).
    rewrite length_app. cbn [List.length].
    split; [reflexivity|]. split; [lia|]. split; [apply Hwarn|].
    split; [|split; [|split]].
    + intros Hstuck.
      assert (swr_set cr0 = true) as Hcr.
      { apply Forall_app in Hdev as [_ Hdev].
        inversion Hdev as [|? ? [tr ->] _]. apply Hstuck. }
      split; [rewrite (Hlast Hcr); reflexivity | apply Hwarn, Hcr].
    + rewrite writes_sar_commit. apply last_opt_app.
    + unfold commit_events. rewrite !writes_to_app, Hgpr.
      destruct (enabled st); reflexivity.
    + apply writes_cr_commit, Hgcr.
Qed.

(** The device whose reset bit never clears: six reads, the warning, and
    apply carries on to write the sample, period and control registers. *)
Lemma sw_reset_bounded_witness :
  (forall tr, swr_set (u32 (mmio stuck_reset_hw tr MX3_PWMCR)) = true)
  /\ (exists polls cr,
         pwm_imx27_sw_reset stuck_reset_hw fresh_machine
         = (tt, mk_machine (sw_reset_events polls cr) (mk_chip 0))
         /\ List.length (polls ++ [cr]) = 6%nat
         /\ In (EvDevWarn "software reset timeout")
               (sw_reset_events polls cr))
  /\ fst (pwm_imx27_apply stuck_reset_hw stopped_pwm half_duty
            fresh_machine) = 0
  /\ (exists polls cr rest,
         events_of (pwm_imx27_apply stuck_reset_hw stopped_pwm half_duty)
                   fresh_machine
         = EvClkPrepareEnable 0 :: sw_reset_events polls cr ++ rest
         /\ In (EvDevWarn "software reset timeout")
               (sw_reset_events polls cr)
         /\ last_opt (writes_to MX3_PWMSAR rest) = Some 16500
         /\ writes_to MX3_PWMPR rest = [32998]
         /\ writes_to MX3_PWMCR rest = [0x03c20011]).
Proof.
  assert (forall tr, swr_set (u32 (mmio stuck_reset_hw tr MX3_PWMCR)) = true)
    as Hstuck by (intros tr; reflexivity).
  destruct (sw_reset_bounded stuck_reset_hw fresh_machine)
    as [(polls & cr & Hrun & _ & _ & _ & Hsix) Happly].
  split; [exact Hstuck|]. split.
  - exists polls, cr. split; [exact Hrun | exact (Hsix Hstuck)].
  - specialize (Happly stopped_pwm half_duty). cbv zeta in Happly.
    destruct (Happly eq_refl eq_refl)
      as (Hret & _ & polls' & cr' & rest & Hev & _ & _ & Hw & Hsar & Hpr
          & Hcr).
    split; [exact Hret|].
    exists polls', cr', rest.
    split; [exact Hev|]. split; [exact (proj2 (Hw Hstuck))|].
    split; [exact Hsar|]. split; [exact Hpr | exact Hcr].
Defined.

(** ** Apply: the clocks *)

Section ApplyClocks.

Variable hw : platform.

(** C6: when the PWM is stopped and enabling the clocks fails, apply hands
    the error code back at once.  The attempt to enable the clocks is the
    only event: no register is read or written, and the cached duty cycle
    is as before. *)
Theorem apply_clk_failure_no_side_effect :
  forall (pwm : pwm_device) (st : pwm_state) (m : machine),
    enabled (state pwm) = false ->
    s32 (clk_enable_result hw (trace m)) <> 0 ->
    let r := s32 (clk_enable_result hw (trace m)) in
    pwm_imx27_apply hw pwm st m
    = (r, mk_machine (trace m ++ [EvClkPrepareEnable r]) (imx m))
    /\ forallb (fun e => negb (is_write e))
               (events_of (pwm_imx27_apply hw pwm st) m) = true
    /\ imx (snd (pwm_imx27_apply hw pwm st m)) = imx m.
Proof.
  intros pwm st m Hen Hclk r.
  destruct (apply_runs hw pwm st m) as (r' & ev & chip' & Hr & Hrun).
  inversion Hrun; subst; try congruence.
  rewrite (runs_events _ _ _ _ _ Hr). unfold runs in Hr. rewrite Hr.
  repeat split; reflexivity.
Qed.

(** C10: when the PWM was running at the start of apply, apply returns 0
    and never asks for the clocks. *)
Theorem apply_running_always_succeeds :
  forall (pwm : pwm_device) (st : pwm_state) (m : machine),
    enabled (state pwm) = true ->
    fst (pwm_imx27_apply hw pwm st m) = 0
    /\ forallb (fun e => negb (is_clk_enable e))
               (events_of (pwm_imx27_apply hw pwm st) m) = true.
Proof.
  intros pwm st m Hen.
  destruct (apply_runs hw pwm st m) as (r & ev & chip' & Hr & Hrun).
  rewrite (runs_events _ _ _ _ _ Hr).
  apply runs_result in Hr as [-> _].
  inversion Hrun as [pr cr sr guard _ Hf | |]; subst; try congruence.
  split; [reflexivity|].
  destruct Hf as (_ & _ & _ & Hg).
  apply erratum_guard_writes in Hg as (_ & _ & _ & Hclk & _).
  rewrite forallb_app, wait_fifo_slot_no_clk_enable.
  now apply commit_no_clk_enable.
Qed.

End ApplyClocks.

Lemma apply_clk_failure_no_side_effect_witness :
  pwm_imx27_apply no_clock_hw stopped_pwm half_duty fresh_machine
  = (-5, mk_machine [EvClkPrepareEnable (-5)] (mk_chip 0)).
Proof.
  apply (apply_clk_failure_no_side_effect no_clock_hw stopped_pwm half_duty
           fresh_machine).
  - reflexivity.
  - vm_compute. discriminate.
Defined.

Lemma apply_running_always_succeeds_witness :
  fst (pwm_imx27_apply running_hw running_pwm half_duty fresh_machine) = 0.
Proof.
  apply (apply_running_always_succeeds running_hw running_pwm half_duty
           fresh_machine).
  reflexivity.
Defined.

(** ** The control word *)

Lemma prescaler_set_land p c :
  Z.land (MX3_PWMCR_PRESCALER_SET p) c
  = Z.land (Z.shiftl (p - 1) 4) (Z.land MX3_PWMCR_PRESCALER c).
Proof.
  unfold MX3_PWMCR_PRESCALER_SET, FIELD_PREP.
  change (__bf_shf MX3_PWMCR_PRESCALER) with 4.
  now rewrite Z.land_assoc.
Qed.

Lemma prescaler_set_disjoint p c :
  Z.land MX3_PWMCR_PRESCALER c = 0 ->
  Z.land (MX3_PWMCR_PRESCALER_SET p) c = 0.
Proof. intros H. now rewrite prescaler_set_land, H, Z.land_0_r. Qed.

(** The 12-bit field keeps the prescaler minus one modulo 4096. *)
Lemma prescaler_get_set p :
  FIELD_GET MX3_PWMCR_PRESCALER (MX3_PWMCR_PRESCALER_SET p)
  = (p - 1) mod 4096.
Proof.
  unfold FIELD_GET. rewrite prescaler_set_land.
  change (__bf_shf MX3_PWMCR_PRESCALER) with 4.
  change (Z.land MX3_PWMCR_PRESCALER MX3_PWMCR_PRESCALER)
    with (Z.shiftl (Z.ones 12) 4).
  rewrite <- Z.shiftl_land, Z.shiftr_shiftl_l by lia.
  change (4 - 4) with 0. rewrite Z.shiftl_0_r, Z.land_ones by lia.
  reflexivity.
Qed.

(** The control word is the prescaler field joined to the word for
    prescaler 1, whose field is 0. *)
Lemma apply_cr_split p st :
  apply_cr p st = Z.lor (MX3_PWMCR_PRESCALER_SET p) (apply_cr 1 st).
Proof.
  unfold apply_cr, u32. rewrite <- !Z.land_ones by lia.
  change (MX3_PWMCR_PRESCALER_SET 1) with 0.
  set (P := MX3_PWMCR_PRESCALER_SET p).
  assert (Z.land P (Z.ones 32) = P) as HP.
  { unfold P. rewrite prescaler_set_land.
    change (Z.land MX3_PWMCR_PRESCALER (Z.ones 32)) with MX3_PWMCR_PRESCALER.
    unfold MX3_PWMCR_PRESCALER_SET, FIELD_PREP.
    now change (__bf_shf MX3_PWMCR_PRESCALER) with 4. }
  destruct (polarity st), (enabled st);
    rewrite <- !Z.lor_assoc, Z.land_lor_distr_l, HP; reflexivity.
Qed.

Lemma apply_cr_land p st c :
  Z.land MX3_PWMCR_PRESCALER c = 0 ->
  Z.land (apply_cr p st) c = Z.land (apply_cr 1 st) c.
Proof.
  intros H. rewrite apply_cr_split, Z.land_lor_distr_l.
  now rewrite prescaler_set_disjoint.
Qed.

Lemma apply_cr_prescaler p st :
  MX3_PWMCR_PRESCALER_GET (apply_cr p st) = (p - 1) mod 4096 + 1.
Proof.
  unfold MX3_PWMCR_PRESCALER_GET. f_equal.
  rewrite <- prescaler_get_set. unfold FIELD_GET. f_equal.
  rewrite apply_cr_split, Z.land_lor_distr_l.
  replace (Z.land (apply_cr 1 st) MX3_PWMCR_PRESCALER) with 0
    by (destruct st as [? ? [] []]; reflexivity).
  rewrite Z.lor_0_r. rewrite prescaler_set_land.
  change (Z.land MX3_PWMCR_PRESCALER MX3_PWMCR_PRESCALER)
    with MX3_PWMCR_PRESCALER.
  unfold MX3_PWMCR_PRESCALER_SET, FIELD_PREP.
  now change (__bf_shf MX3_PWMCR_PRESCALER) with 4.
Qed.

(** C9: the last control-register write of every successful apply carries
    the stop, doze, wait and debug enable bits and the clock source
    IPG_HIGH.  Outside the prescaler, polarity and enable fields the word
    is the same constant for every request; those three fields hold the
    prescaler minus one (modulo 4096), the requested polarity and the
    requested enable. *)
Theorem apply_control_word :
  forall (hw : platform) (pwm : pwm_device) (st : pwm_state) (m : machine),
    fst (pwm_imx27_apply hw pwm st m) = 0 ->
    exists cr,
      last_opt (writes_to MX3_PWMCR (events_of (pwm_imx27_apply hw pwm st) m))
      = Some cr
      /\ Z.land cr MX3_PWMCR_STOPEN = MX3_PWMCR_STOPEN
      /\ Z.land cr MX3_PWMCR_DOZEN = MX3_PWMCR_DOZEN
      /\ Z.land cr MX3_PWMCR_WAITEN = MX3_PWMCR_WAITEN
      /\ Z.land cr MX3_PWMCR_DBGEN = MX3_PWMCR_DBGEN
      /\ FIELD_GET MX3_PWMCR_CLKSRC cr = MX3_PWMCR_CLKSRC_IPG_HIGH
      /\ Z.ldiff cr apply_cr_variable = apply_cr_fixed
      /\ FIELD_GET MX3_PWMCR_PRESCALER cr
         = (prescale (apply_counter_units hw st) - 1) mod 4096
      /\ FIELD_GET MX3_PWMCR_POUTC cr
         = match polarity st with
           | PWM_POLARITY_NORMAL => MX3_PWMCR_POUTC_NORMAL
           | PWM_POLARITY_INVERSED => MX3_PWMCR_POUTC_INVERTED
           end
      /\ en_set cr = enabled st.
Proof.
  intros hw pwm st m Hok.
  set (cu := apply_counter_units hw st).
  assert (last_opt (writes_to MX3_PWMCR
                      (events_of (pwm_imx27_apply hw pwm st) m))
          = Some (apply_cr (prescale cu) st)) as Hlast.
  { destruct (apply_runs hw pwm st m) as (r & ev & chip' & Hr & Hrun).
    rewrite (runs_events _ _ _ _ _ Hr).
    apply runs_result in Hr as [Hr _]. rewrite Hr in Hok.
    inversion Hrun
      as [pr cr sr guard _ Hf | | polls cr0 pr cr sr guard _ _ _ Hf];
      subst; try congruence;
      destruct Hf as (_ & _ & _ & Hg);
      apply erratum_guard_writes in Hg as (_ & _ & Hcr & _).
    - rewrite writes_to_app, writes_to_wait_fifo_slot.
      now rewrite writes_cr_commit.
    - cbn [writes_to]. rewrite writes_to_app, writes_to_sw_reset.
      now rewrite writes_cr_commit. }
  exists (apply_cr (prescale cu) st). split; [exact Hlast|].
  pose proof (apply_cr_prescaler (prescale cu) st) as Hp.
  unfold MX3_PWMCR_PRESCALER_GET in Hp.
  unfold FIELD_GET in *. unfold en_set. rewrite Z.ldiff_land.
  repeat split;
    try (rewrite apply_cr_land by reflexivity; unfold apply_cr;
         destruct (polarity st), (enabled st); reflexivity).
  apply Z.add_cancel_r in Hp. exact Hp.
Qed.

Section GetState.

Variable hw : platform.

Lemma get_state_runs st0 m :
  0 <= s32 (clk_enable_result hw (trace m)) ->
  exists cr pr sar ev,
    runs (pwm_imx27_get_state hw st0) m
         (0, get_state_result hw st0 (u32 (imx_duty_cycle (imx m))) cr pr sar)
         ev (imx m)
    /\ cr = u32 (mmio hw (trace m ++ [EvClkPrepareEnable
                                        (s32 (clk_enable_result hw (trace m)))])
                      MX3_PWMCR)
    /\ read_after hw (trace m) MX3_PWMCR cr
    /\ read_after hw (trace m) MX3_PWMPR pr
    /\ no_writes ev = true
    /\ if en_set cr
       then read_after hw (trace m) MX3_PWMSAR sar
            /\ reads_of MX3_PWMSAR ev = [sar]
       else reads_of MX3_PWMSAR ev = [].
Proof.
  intros Hclk.
  unfold runs, pwm_imx27_get_state, bind, clk_bulk_prepare_enable.
  set (r := s32 _) in *.
  apply Z.ltb_ge in Hclk. rewrite Hclk.
  unfold readl at 1. cbn [trace imx].
  set (tr1 := [EvClkPrepareEnable r]).
  set (cr := u32 (mmio hw (trace m ++ tr1) MX3_PWMCR)).
  set (field := FIELD_GET MX3_PWMCR_POUTC cr).
  set (warn := negb (field =? MX3_PWMCR_POUTC_NORMAL)
               && negb (field =? MX3_PWMCR_POUTC_INVERTED)).
  set (tr2 := tr1 ++ [EvReadl MX3_PWMCR cr]
              ++ (if warn
                  then [EvDevWarn "can't set polarity, output disconnected"]
                  else [])).
  assert (no_writes tr2 = true) as Hnw2
      by (subst tr2; destruct warn; reflexivity).
  assert (when warn (dev_warn "can't set polarity, output disconnected")
            (mk_machine ((trace m ++ tr1) ++ [EvReadl MX3_PWMCR cr]) (imx m))
          = (tt, mk_machine (trace m ++ tr2) (imx m))) as ->.
  { subst tr2. destruct warn; unfold when, dev_warn, emit, ret;
      cbn [trace imx]; rewrite <- ?app_assoc, ?app_nil_r; reflexivity. }
  unfold readl at 1. cbn [trace imx].
  set (pr := u32 (mmio hw (trace m ++ tr2) MX3_PWMPR)).
  fold (en_set cr).
  set (tr3 := tr2 ++ [EvReadl MX3_PWMPR pr]).
  assert (no_writes tr3 = true) as Hnw3.
  { subst tr3. unfold no_writes in *. now rewrite forallb_app, Hnw2. }
  exists cr, pr, (u32 (mmio hw (trace m ++ tr3) MX3_PWMSAR)).
  destruct (en_set cr) eqn:Hen.
  - exists (tr3 ++ [EvReadl MX3_PWMSAR
                        (u32 (mmio hw (trace m ++ tr3) MX3_PWMSAR));
                    EvClkDisableUnprepare]).
    split; [|split; [reflexivity|
             split; [exists tr1; split; [reflexivity|reflexivity]|
             split; [exists tr2; split; [exact Hnw2|reflexivity]|split]]]].
    + unfold readl, clk_bulk_disable_unprepare, emit, ret. cbn [trace imx].
      unfold get_state_result. rewrite Hen. fold field.
      subst tr3. rewrite <- !app_assoc. reflexivity.
    + unfold no_writes in *. now rewrite forallb_app, Hnw3.
    + split; [exists tr3; split; [exact Hnw3|reflexivity]|].
      subst tr3 tr2 tr1. rewrite !reads_of_app. destruct warn; reflexivity.
  - exists (tr3 ++ [EvClkDisableUnprepare]).
    split; [|split; [reflexivity|
             split; [exists tr1; split; [reflexivity|reflexivity]|
             split; [exists tr2; split; [exact Hnw2|reflexivity]|split]]]].
    + unfold get_duty_cycle, clk_bulk_disable_unprepare, emit, ret.
      cbn [trace imx].
      unfold get_state_result. rewrite Hen. fold field.
      subst tr3. rewrite <- !app_assoc. reflexivity.
    + unfold no_writes in *. now rewrite forallb_app, Hnw3.
    + subst tr3 tr2 tr1. rewrite !reads_of_app. destruct warn; reflexivity.
Qed.

End GetState.

(** ** The cached duty cycle *)

(** What every successful apply leaves: the new duty cycle, as written to
    the sample register last, is in the cache. *)
Lemma apply_updates_cache hw pwm st m :
  fst (pwm_imx27_apply hw pwm st m) = 0 ->
  let new := u32 (duty_cycles (apply_counter_units hw st)) in
  imx (snd (pwm_imx27_apply hw pwm st m)) = mk_chip new
  /\ last_opt (writes_to MX3_PWMSAR (events_of (pwm_imx27_apply hw pwm st) m))
     = Some new.
Proof.
  intros Hok new.
  destruct (apply_runs hw pwm st m) as (r & ev & chip' & Hr & Hrun).
  rewrite (runs_events _ _ _ _ _ Hr).
  apply runs_result in Hr as [Hr ->]. rewrite Hr in Hok.
  inversion Hrun; subst; try congruence; split; try reflexivity.
  - rewrite writes_to_app, writes_to_wait_fifo_slot, writes_sar_commit.
    apply last_opt_app.
  - cbn [writes_to]. rewrite writes_to_app, writes_to_sw_reset.
    rewrite writes_sar_commit. apply last_opt_app.
Qed.

(** C7: when the control register shows the PWM disabled, get_state does
    not read the sample register and reports the duty cycle converted from
    the cached value.  Every successful apply stores in the cache the new
    duty cycle, which is also the last value it wrote to the sample
    register, whichever way the erratum workaround went; so a get_state
    that follows it and finds the PWM disabled reports that value. *)
Theorem disabled_duty_from_cache :
  forall (hw : platform),
    (forall (st0 : pwm_state) (m : machine),
        let r := s32 (clk_enable_result hw (trace m)) in
        let cr := u32 (mmio hw (trace m ++ [EvClkPrepareEnable r]) MX3_PWMCR) in
        0 <= r -> en_set cr = false ->
        fst (fst (pwm_imx27_get_state hw st0 m)) = 0
        /\ enabled (snd (fst (pwm_imx27_get_state hw st0 m))) = false
        /\ duty_cycle (snd (fst (pwm_imx27_get_state hw st0 m)))
           = cycles_to_ns (u32 (MX3_PWMCR_PRESCALER_GET cr))
               (u32 (clk_get_rate hw)) (u32 (imx_duty_cycle (imx m)))
        /\ reads_of MX3_PWMSAR (events_of (pwm_imx27_get_state hw st0) m) = [])
    /\ (forall (pwm : pwm_device) (st : pwm_state) (m : machine),
           fst (pwm_imx27_apply hw pwm st m) = 0 ->
           let new := u32 (duty_cycles (apply_counter_units hw st)) in
           imx_duty_cycle (imx (snd (pwm_imx27_apply hw pwm st m))) = new
           /\ last_opt (writes_to MX3_PWMSAR
                          (events_of (pwm_imx27_apply hw pwm st) m))
              = Some new).
Proof.
  intros hw. split.
  - intros st0 m r cr Hclk Hen.
    destruct (get_state_runs hw st0 m Hclk)
      as (cr' & pr & sar & ev & Hr & Hcr & _ & _ & _ & Hsar).
    fold r in Hcr. fold cr in Hcr. subst cr'.
    rewrite (runs_events _ _ _ _ _ Hr).
    apply runs_result in Hr as [Hr _]. rewrite Hr, Hen in *.
    unfold get_state_result. cbn [fst snd enabled duty_cycle]. rewrite Hen.
    repeat split; exact Hsar.
  - intros pwm st m Hok new.
    destruct (apply_updates_cache hw pwm st m Hok) as [-> Hlast].
    split; [reflexivity | exact Hlast].
Qed.

(** ** Apply: the FIFO wait *)

Lemma erratum_guard_no_wait hw cu period_us c cr val old guard :
  erratum_guard hw cu period_us c cr val old guard ->
  forallb (fun e => negb (is_fifo_wait e)) guard = true.
Proof. intros H. inversion H; reflexivity. Qed.

Lemma commit_no_wait cu st pr cr sr guard :
  forallb (fun e => negb (is_fifo_wait e)) guard = true ->
  forallb (fun e => negb (is_fifo_wait e))
          (commit_events cu st pr cr sr guard) = true.
Proof.
  intros Hg. unfold commit_events. rewrite !forallb_app, Hg.
  destruct (enabled st); reflexivity.
Qed.

Lemma sw_reset_no_wait polls cr :
  forallb (fun e => negb (is_fifo_wait e)) (sw_reset_events polls cr) = true.
Proof.
  unfold sw_reset_events. cbn [forallb is_fifo_wait negb andb].
  rewrite forallb_app. apply andb_true_iff. split.
  - induction (polls ++ [cr]) as [|v l IH]; [reflexivity | exact IH].
  - destruct (swr_set cr); reflexivity.
Qed.

(** Rounding a period up to whole milliseconds, when the result fits the
    [unsigned int] that holds it. *)
Lemma period_ms_ceiling p :
  0 <= p <= 4294967295 * NSEC_PER_MSEC ->
  let ms := u32 (DIV_ROUND_UP_ULL p NSEC_PER_MSEC) in
  (ms - 1) * NSEC_PER_MSEC < p <= ms * NSEC_PER_MSEC.
Proof.
  unfold NSEC_PER_MSEC, DIV_ROUND_UP_ULL, DIV_ROUND_DOWN_ULL, do_div.
  intros Hp.
  rewrite (u64_small p) by lia.
  rewrite (u64_small (p + 1000000 - 1)) by lia.
  rewrite (u64_small (p + 1000000 - 1)) by lia.
  change (u32 1000000) with 1000000.
  assert (0 <= (p + 1000000 - 1) / 1000000 < 2 ^ 32) as Hq.
  { split; [apply Z.div_pos; lia|]. apply Z.div_lt_upper_bound; lia. }
  rewrite (u32_small _ Hq). cbv zeta.
  pose proof (Z.div_mod (p + 1000000 - 1) 1000000 ltac:(lia)) as Hdm.
  pose proof (Z.mod_pos_bound (p + 1000000 - 1) 1000000 ltac:(lia)).
  lia.
Qed.

(** C5: when the PWM is running and the status register shows four words
    in the FIFO both at the first check and after the sleep, apply sleeps
    for the recorded period rounded up to whole milliseconds, warns that
    there is no free FIFO slot, and carries on: it returns 0 and the new
    duty cycle is written to the sample register after the warning.  When
    the PWM is not running, apply neither sleeps nor gives that warning. *)
Theorem apply_fifo_full_completes :
  forall (hw : platform) (pwm : pwm_device) (st : pwm_state) (m : machine),
    let sr1 := u32 (mmio hw (trace m) MX3_PWMSR) in
    let ms := u32 (DIV_ROUND_UP_ULL (period (state pwm)) NSEC_PER_MSEC) in
    let sr2 :=
      u32 (mmio hw (trace m ++ [EvReadl MX3_PWMSR sr1; EvMsleep ms])
                MX3_PWMSR) in
    (enabled (state pwm) = true ->
     fifoav sr1 = MX3_PWMSR_FIFOAV_4WORDS ->
     fifoav sr2 = MX3_PWMSR_FIFOAV_4WORDS ->
     fst (pwm_imx27_apply hw pwm st m) = 0
     /\ (exists rest,
            events_of (pwm_imx27_apply hw pwm st) m
            = [EvReadl MX3_PWMSR sr1; EvMsleep ms; EvReadl MX3_PWMSR sr2;
               EvDevWarn "there is no free FIFO slot"] ++ rest
            /\ last_opt (writes_to MX3_PWMSAR rest)
               = Some (u32 (duty_cycles (apply_counter_units hw st))))
     /\ (0 <= period (state pwm) <= 4294967295 * NSEC_PER_MSEC ->
         (ms - 1) * NSEC_PER_MSEC < period (state pwm)
                                  <= ms * NSEC_PER_MSEC))
    /\ (enabled (state pwm) = false ->
        forallb (fun e => negb (is_fifo_wait e))
                (events_of (pwm_imx27_apply hw pwm st) m) = true).
Proof.
  intros hw pwm st m sr1 ms sr2.
  destruct (apply_runs hw pwm st m) as (r & ev & chip' & Hr & Hrun).
  rewrite (runs_events _ _ _ _ _ Hr).
  apply runs_result in Hr as [-> _].
  split.
  - intros Hen H1 H2.
    inversion Hrun as [pr cr sr guard _ Hf | |]; subst; try congruence.
    split; [reflexivity|]. split; [|apply period_ms_ceiling].
    unfold wait_fifo_slot_events. fold sr1. rewrite H1. cbn [Z.eqb Pos.eqb].
    fold ms. fold sr2. rewrite H2. cbn [Z.eqb Pos.eqb].
    eexists. split; [cbn [app]; reflexivity|].
    rewrite writes_sar_commit. apply last_opt_app.
  - intros Hen.
    inversion Hrun as [| | polls cr0 pr cr sr guard _ _ _ Hf];
      subst; try congruence; [reflexivity|].
    destruct Hf as (_ & _ & _ & Hg). apply erratum_guard_no_wait in Hg.
    cbn [forallb is_fifo_wait negb andb]. rewrite forallb_app.
    now rewrite sw_reset_no_wait, commit_no_wait.
Qed.

(** ** Apply: the erratum workaround *)

Lemma apply_margin_range hw : 0 <= apply_margin hw < 2 ^ 35.
Proof.
  unfold apply_margin, do_div, NSEC_PER_SEC. cbv zeta.
  change (u32 1000000000) with 1000000000.
  pose proof (u64_range (u64 (apply_clkrate hw * 1500))).
  split; [apply Z.div_pos; lia|]. apply Z.div_lt_upper_bound; lia.
Qed.

(** The sample writes the workaround adds are copies of the cached value,
    and there are some only if the control register read for the decision
    shows the PWM enabled and the new duty cycle is below the cached one. *)
Lemma erratum_guard_cases hw cu period_us c cr val old guard :
  erratum_guard hw cu period_us c cr val old guard ->
  (writes_to MX3_PWMSAR guard = []
   \/ writes_to MX3_PWMSAR guard = [u32 old]
   \/ writes_to MX3_PWMSAR guard = [u32 old; u32 old])
  /\ (writes_to MX3_PWMSAR guard <> [] ->
      duty_cycles cu < old /\ en_set cr = true).
Proof.
  intros H. inversion H; subst; cbn; split; auto; congruence.
Qed.

(** The scenario of the specification: cached duty cycle 1000, new duty
    cycle 200, period 5000, counter at 150, PWM enabled. *)
Lemma erratum_guard_scenario hw cu period_us cr val guard :
  erratum_guard hw cu period_us (apply_margin hw) cr val 1000 guard ->
  duty_cycles cu = 200 ->
  (forall tr, u32 (mmio hw tr MX3_PWMCNR) = 150) ->
  en_set cr = true ->
  val < MX3_PWMSR_FIFOAV_2WORDS ->
  50 <= apply_margin hw ->
  writes_to MX3_PWMSAR guard = [1000]
  \/ writes_to MX3_PWMSAR guard = [1000; 1000].
Proof.
  intros H Hdc Hcnr Hen Hval Hc.
  pose proof (apply_margin_range hw) as Hrange.
  inversion H as [Hno | | | cnr _ _ _ _ _ _ | cnr _ _ _ _ [tr ->] Hw]; subst.
  - rewrite Hdc, Hen in Hno. discriminate.
  - right. reflexivity.
  - lia.
  - left. reflexivity.
  - rewrite Hcnr in Hw. unfold in_erratum_window in Hw.
    change (s32 150) with 150 in Hw. change (u32 150) with 150 in Hw.
    rewrite u64_small, Hdc in Hw by lia.
    assert ((150 + apply_margin hw >=? 200) = true) as Hge
        by (apply Z.geb_le; lia).
    rewrite Hge in Hw. discriminate.
Qed.

(** C1, as the code has it: the sample-register writes of a successful apply
    are the guard writes followed by the new duty cycle; the guard is empty
    or one or two copies of the cached duty cycle.  A guard write happens
    only if the new duty cycle is strictly below the cached one and the
    control register, as read for the decision, shows the PWM enabled; so
    there is none when the new duty cycle is greater or equal.  In the
    scenario (PWM running, cached duty cycle 1000, new duty cycle 200,
    period 5000, counter always at 150, control register always showing
    enable) the guard write is performed when, in addition, the FIFO holds
    fewer than two words and the 1.5us margin is at least 50 clock cycles. *)
Theorem erratum_guard_conditions :
  forall (hw : platform) (pwm : pwm_device) (st : pwm_state) (m : machine),
    let cu := apply_counter_units hw st in
    let old := u32 (imx_duty_cycle (imx m)) in
    let ev := events_of (pwm_imx27_apply hw pwm st) m in
    fst (pwm_imx27_apply hw pwm st m) = 0 ->
    exists guard,
      writes_to MX3_PWMSAR ev = guard ++ [u32 (duty_cycles cu)]
      /\ (guard = [] \/ guard = [old] \/ guard = [old; old])
      /\ (guard <> [] ->
          duty_cycles cu < old
          /\ exists cr, last_opt (reads_of MX3_PWMCR ev) = Some cr
                        /\ en_set cr = true)
      /\ (old <= duty_cycles cu -> guard = [])
      /\ (enabled (state pwm) = true ->
          old = 1000 -> duty_cycles cu = 200 -> period_cycles cu = 5000 ->
          (forall tr, u32 (mmio hw tr MX3_PWMCNR) = 150) ->
          (forall tr, en_set (u32 (mmio hw tr MX3_PWMCR)) = true) ->
          (forall tr, fifoav (u32 (mmio hw tr MX3_PWMSR))
                      < MX3_PWMSR_FIFOAV_2WORDS) ->
          50 <= apply_margin hw ->
          guard = [1000] \/ guard = [1000; 1000]).
Proof.
  intros hw pwm st m cu old ev Hok.
  destruct (apply_runs hw pwm st m) as (r & ev' & chip' & Hr & Hrun).
  subst ev. rewrite (runs_events _ _ _ _ _ Hr).
  apply runs_result in Hr as [Hr _]. rewrite Hr in Hok. clear Hr.
  assert (exists pr cr sr guard,
             commit_facts hw cu old pr cr sr guard
             /\ writes_to MX3_PWMSAR ev'
                = writes_to MX3_PWMSAR guard ++ [u32 (duty_cycles cu)]
             /\ last_opt (reads_of MX3_PWMCR ev') = Some cr)
    as (pr & cr & sr & guard & Hf & Hsar & Hcr).
  { inversion Hrun
      as [pr cr sr guard _ Hf | | polls cr0 pr cr sr guard _ _ _ Hf];
      subst; try congruence; exists pr, cr, sr, guard;
      (split; [exact Hf|]);
      pose proof Hf as (_ & _ & _ & Hg);
      apply erratum_guard_writes in Hg as (Hrd & _).
    - rewrite writes_to_app, writes_to_wait_fifo_slot, writes_sar_commit.
      rewrite reads_of_app, reads_cr_wait_fifo_slot, reads_cr_commit by auto.
      split; reflexivity.
    - cbn [writes_to reads_of].
      rewrite writes_to_app, writes_to_sw_reset, writes_sar_commit.
      rewrite reads_of_app, reads_of_sw_reset, reads_cr_commit by auto.
      split; [reflexivity|]. apply last_opt_app. }
  destruct Hf as (_ & Hdcr & Hdsr & Hg).
  assert (u32 old = old) as Hold by apply u32_idem.
  pose proof (erratum_guard_cases _ _ _ _ _ _ _ _ Hg) as [Hshape Hcond].
  rewrite Hold in Hshape.
  exists (writes_to MX3_PWMSAR guard).
  split; [exact Hsar|]. split; [exact Hshape|]. split; [|split].
  - intros Hne. destruct (Hcond Hne) as [Hlt Hen].
    split; [exact Hlt|]. now exists cr.
  - intros Hge. destruct (writes_to MX3_PWMSAR guard) eqn:E; [reflexivity|].
    destruct Hcond as [Hlt _]; [discriminate | lia].
  - intros _ Hold1000 Hdc _ Hcnr Hcren Hfifo Hmargin.
    rewrite Hold1000 in Hg.
    destruct Hdcr as [tr1 ->]. destruct Hdsr as [tr2 ->].
    eapply erratum_guard_scenario; eauto.
Qed.

(** ** The rate conversion *)

Section RateConversion.

Variable hw : platform.

Lemma prescale_eq st :
  prescale (apply_counter_units hw st) = raw_period_cycles hw st / 65536 + 1.
Proof.
  unfold apply_counter_units. cbn [prescale].
  fold (raw_period_cycles hw st).
  pose proof (ulong_range (plat_abi hw)
                (do_div (u64 (apply_clkrate hw * u64 (period st)))
                        NSEC_PER_SEC)) as Hr.
  fold (raw_period_cycles hw st) in Hr.
  apply Z.mod_small.
  assert (0 <= raw_period_cycles hw st / 65536) by (apply Z.div_pos; lia).
  assert (raw_period_cycles hw st / 65536
          < 2 ^ BITS_PER_LONG (plat_abi hw) / 65536 + 1).
  { pose proof (Z.div_le_mono (raw_period_cycles hw st)
                  (2 ^ BITS_PER_LONG (plat_abi hw))
                  65536 ltac:(lia) ltac:(lia)). lia. }
  assert (2 ^ BITS_PER_LONG (plat_abi hw) / 65536 + 2
          <= 2 ^ BITS_PER_LONG (plat_abi hw))
    by (destruct (plat_abi hw); vm_compute; discriminate).
  lia.
Qed.

Lemma period_cycles_eq st :
  period_cycles (apply_counter_units hw st)
  = let pc :=
      raw_period_cycles hw st / prescale (apply_counter_units hw st) in
    if pc >? 2 then pc - 2 else 0.
Proof. reflexivity. Qed.

Lemma duty_cycles_eq st :
  duty_cycles (apply_counter_units hw st)
  = raw_duty_cycles hw st / prescale (apply_counter_units hw st).
Proof. reflexivity. Qed.

Lemma raw_period_cycles_range st :
  0 <= raw_period_cycles hw st < 2 ^ BITS_PER_LONG (plat_abi hw).
Proof. apply ulong_range. Qed.

Lemma prescale_pos st : 1 <= prescale (apply_counter_units hw st).
Proof.
  rewrite prescale_eq. pose proof (raw_period_cycles_range st).
  assert (0 <= raw_period_cycles hw st / 65536) by (apply Z.div_pos; lia). lia.
Qed.

(** The prescaler brings the period below 2^16. *)
Lemma scaled_period_fits st :
  0 <= raw_period_cycles hw st / prescale (apply_counter_units hw st) < 65536.
Proof.
  pose proof (prescale_pos st). pose proof (raw_period_cycles_range st).
  split; [apply Z.div_pos; lia|].
  apply Z.div_lt_upper_bound; [lia|]. rewrite prescale_eq.
  pose proof (Z.div_mod (raw_period_cycles hw st) 65536 ltac:(lia)).
  pose proof (Z.mod_pos_bound (raw_period_cycles hw st) 65536 ltac:(lia)).
  lia.
Qed.

Lemma period_cycles_range st :
  0 <= period_cycles (apply_counter_units hw st) <= 65533.
Proof.
  rewrite period_cycles_eq. cbv zeta. pose proof (scaled_period_fits st).
  destruct (_ >? 2) eqn:E; [apply Z.gtb_lt in E|]; lia.
Qed.

(** The hardware period, [period_cycles + 2], is at least the scaled
    period. *)
Lemma scaled_period_le st :
  raw_period_cycles hw st / prescale (apply_counter_units hw st)
  <= period_cycles (apply_counter_units hw st) + 2.
Proof.
  rewrite period_cycles_eq. cbv zeta.
  destruct (_ >? 2) eqn:E; [lia|].
  rewrite Z.gtb_ltb in E. apply Z.ltb_ge in E. lia.
Qed.

(** C2, as the code has it: for every request the prescaler is at least 1
    and the period value is between 0 and 65533, so it and the hardware
    period (the value plus 2) fit the 16-bit register.  When the duty cycle
    is at most the period, [clkrate * period] does not overflow 64 bits and
    the period in clock cycles fits an [unsigned long], the duty value is at
    most the hardware period: [duty_cycles <= period_cycles + 2]. *)
Theorem counter_units_bounds :
  forall (st : pwm_state),
    let cu := apply_counter_units hw st in
    1 <= prescale cu
    /\ 0 <= period_cycles cu <= 65533
    /\ (u64 (duty_cycle st) <= u64 (period st) ->
        apply_clkrate hw * u64 (period st) < 2 ^ 64 ->
        apply_clkrate hw * u64 (period st) / NSEC_PER_SEC
        < 2 ^ BITS_PER_LONG (plat_abi hw) ->
        0 <= duty_cycles cu <= period_cycles cu + 2).
Proof.
  intros st cu. split; [apply prescale_pos|].
  split; [apply period_cycles_range|].
  intros Hle Hov Hfit.
  pose proof (prescale_pos st) as Hp. fold cu in Hp.
  pose proof (scaled_period_le st) as Hs. fold cu in Hs.
  pose proof (u64_range (duty_cycle st)) as HD.
  pose proof (u64_range (period st)) as HP.
  assert (0 <= apply_clkrate hw) as Hclk by apply ulong_range.
  assert (raw_period_cycles hw st
          = apply_clkrate hw * u64 (period st) / NSEC_PER_SEC) as HrP.
  { unfold raw_period_cycles, do_div.
    change (u32 NSEC_PER_SEC) with NSEC_PER_SEC.
    rewrite !(u64_small (apply_clkrate hw * u64 (period st))) by nia.
    apply Z.mod_small.
    split; [apply Z.div_pos; unfold NSEC_PER_SEC; nia | exact Hfit]. }
  assert (raw_duty_cycles hw st
          = apply_clkrate hw * u64 (duty_cycle st) / NSEC_PER_SEC) as HrD.
  { unfold raw_duty_cycles, do_div.
    change (u32 NSEC_PER_SEC) with NSEC_PER_SEC.
    rewrite !(u64_small (apply_clkrate hw * u64 (duty_cycle st))) by nia.
    apply Z.mod_small.
    split; [apply Z.div_pos; unfold NSEC_PER_SEC; nia|].
    eapply Z.le_lt_trans; [|exact Hfit].
    apply Z.div_le_mono; [unfold NSEC_PER_SEC; lia | nia]. }
  unfold cu at 1 2. rewrite duty_cycles_eq. fold cu.
  split; [apply Z.div_pos; [rewrite HrD; apply Z.div_pos;
                            unfold NSEC_PER_SEC; nia | lia]|].
  eapply Z.le_trans; [|exact Hs].
  apply Z.div_le_mono; [lia|]. rewrite HrD, HrP.
  apply Z.div_le_mono; [unfold NSEC_PER_SEC; lia | nia].
Qed.

End RateConversion.

(** ** Round trip: apply, then get_state *)

(** [cycles_to_ns] is the ceiling of [NSEC_PER_SEC * cycles * prescaler /
    pwm_clk] when nothing overflows. *)
Lemma cycles_to_ns_ceiling prescaler pwm_clk cycles :
  0 < pwm_clk < 2 ^ 32 -> 0 <= cycles -> 1 <= prescaler ->
  NSEC_PER_SEC * cycles * prescaler + pwm_clk <= 2 ^ 64 ->
  let ns := cycles_to_ns prescaler pwm_clk cycles in
  (ns - 1) * pwm_clk < NSEC_PER_SEC * cycles * prescaler <= ns * pwm_clk.
Proof.
  intros Hclk Hc Hp Hov.
  unfold cycles_to_ns, DIV_ROUND_UP_ULL, DIV_ROUND_DOWN_ULL, do_div.
  unfold NSEC_PER_SEC in *.
  assert (0 <= cycles < 2 ^ 64) as Hc64 by nia.
  rewrite (u64_small cycles Hc64).
  set (x := 1000000000 * cycles * prescaler) in *.
  assert (0 <= x) by (subst x; nia).
  rewrite !(u64_small x) by lia.
  rewrite !(u64_small (x + pwm_clk - 1)) by lia.
  rewrite (u32_small pwm_clk) by lia. cbv zeta.
  pose proof (Z.div_mod (x + pwm_clk - 1) pwm_clk ltac:(lia)).
  pose proof (Z.mod_pos_bound (x + pwm_clk - 1) pwm_clk ltac:(lia)).
  nia.
Qed.

Section RoundTrip.

Variable hw : platform.

(** What get_state returns after a successful apply, on a device that
    shows the registers as apply wrote them. *)
Lemma get_state_after_apply pwm st st0 m :
  let cu := apply_counter_units hw st in
  let m1 := snd (pwm_imx27_apply hw pwm st m) in
  fst (pwm_imx27_apply hw pwm st m) = 0 ->
  0 <= s32 (clk_enable_result hw (trace m1)) ->
  holds_after hw (trace m1) MX3_PWMCR (apply_cr (prescale cu) st) ->
  holds_after hw (trace m1) MX3_PWMPR (u32 (period_cycles cu)) ->
  (enabled st = true ->
   holds_after hw (trace m1) MX3_PWMSAR (u32 (duty_cycles cu))) ->
  pwm_imx27_get_state hw st0 m1
  = (0, get_state_result hw st0 (u32 (duty_cycles cu))
          (apply_cr (prescale cu) st) (u32 (period_cycles cu))
          (u32 (duty_cycles cu)),
     snd (pwm_imx27_get_state hw st0 m1)).
Proof.
  intros cu m1 Hok Hclk Hcr Hpr Hsar.
  destruct (apply_updates_cache hw pwm st m Hok) as [Hcache _].
  fold m1 cu in Hcache.
  destruct (get_state_runs hw st0 m1 Hclk)
    as (cr & pr & sar & ev & Hr & _ & (t1 & Hn1 & Hcr') & (t2 & Hn2 & Hpr')
        & _ & Hen).
  rewrite (Hcr t1 Hn1) in Hcr'. rewrite (Hpr t2 Hn2) in Hpr'. subst cr pr.
  unfold runs in Hr. rewrite Hr. cbn [snd fst]. rewrite Hcache.
  cbn [imx_duty_cycle]. rewrite u32_idem.
  f_equal. f_equal. unfold get_state_result. f_equal.
  destruct (en_set _) eqn:E; [|reflexivity].
  destruct Hen as [(t3 & Hn3 & ->) _].
  assert (enabled st = true) as Hst.
  { unfold en_set in E. rewrite apply_cr_land in E by reflexivity.
    unfold apply_cr in E. destruct (polarity st), (enabled st);
      solve [reflexivity | discriminate E]. }
  now rewrite (Hsar Hst t3 Hn3).
Qed.

End RoundTrip.

Section RoundTripBounds.

Variable hw : platform.

(** Flooring to prescaled clock cycles and converting back with a ceiling
    loses less than one prescaled cycle and never gains: [ns] is the time
    asked for, [back] the ceiling of the time of [raw / prescaler] prescaled
    cycles, where [raw] is the floor of [ns] in clock cycles. *)
Lemma floor_then_ceiling clk prescaler ns back :
  0 < clk -> 1 <= prescaler -> 0 <= ns ->
  let raw := clk * ns / NSEC_PER_SEC in
  let cycles := raw / prescaler in
  (back - 1) * clk < NSEC_PER_SEC * cycles * prescaler <= back * clk ->
  back <= ns /\ (ns - back) * clk < NSEC_PER_SEC * prescaler.
Proof.
  intros Hclk Hp Hns raw cycles [Hlo Hhi]. unfold NSEC_PER_SEC in *.
  pose proof (Z.div_mod (clk * ns) 1000000000 ltac:(lia)) as H1.
  pose proof (Z.mod_pos_bound (clk * ns) 1000000000 ltac:(lia)) as H2.
  fold raw in H1.
  pose proof (Z.div_mod raw prescaler ltac:(lia)) as H3.
  pose proof (Z.mod_pos_bound raw prescaler ltac:(lia)) as H4.
  fold cycles in H3.
  assert (1000000000 * cycles * prescaler <= clk * ns) as Hle by nia.
  assert (clk * ns < 1000000000 * cycles * prescaler + 1000000000 * prescaler)
    as Hgt by nia.
  split; [|nia].
  assert ((back - 1) * clk < ns * clk) by lia.
  apply Z.mul_lt_mono_pos_r in H; lia.
Qed.

(** C3, as the code has it: take a clock rate between 1 Hz and 2^32 - 1 Hz
    and a period and duty cycle of less than 2^28 clock cycles each (so that
    nothing overflows and the prescaler fits its 12-bit field); let apply
    succeed and let get_state follow on a device that shows the control,
    period and sample registers as apply wrote them.  Then the period and
    duty cycle read back, in nanoseconds, are at least the exact time of the
    values in the registers (rounding up); the duty cycle read back is at
    most the one asked for and less than one cycle of the prescaled clock
    below it; and so is the period, provided it was at least three such
    cycles, so that the period register is not clamped to 0. *)
Theorem apply_get_state_round_trip :
  forall (pwm : pwm_device) (st st0 : pwm_state) (m : machine),
    let clk := clk_get_rate hw in
    let cu := apply_counter_units hw st in
    let m1 := snd (pwm_imx27_apply hw pwm st m) in
    let back := snd (fst (pwm_imx27_get_state hw st0 m1)) in
    0 < clk < 2 ^ 32 ->
    0 <= period st -> 0 <= duty_cycle st ->
    clk * period st < 2 ^ 28 * NSEC_PER_SEC ->
    clk * duty_cycle st < 2 ^ 28 * NSEC_PER_SEC ->
    fst (pwm_imx27_apply hw pwm st m) = 0 ->
    0 <= s32 (clk_enable_result hw (trace m1)) ->
    holds_after hw (trace m1) MX3_PWMCR (apply_cr (prescale cu) st) ->
    holds_after hw (trace m1) MX3_PWMPR (u32 (period_cycles cu)) ->
    (enabled st = true ->
     holds_after hw (trace m1) MX3_PWMSAR (u32 (duty_cycles cu))) ->
    (NSEC_PER_SEC * (period_cycles cu + 2) * prescale cu <= period back * clk
     /\ NSEC_PER_SEC * duty_cycles cu * prescale cu <= duty_cycle back * clk)
    /\ (duty_cycle back <= duty_cycle st
        /\ (duty_cycle st - duty_cycle back) * clk
           < NSEC_PER_SEC * prescale cu)
    /\ (0 < period_cycles cu ->
        period back <= period st
        /\ (period st - period back) * clk < NSEC_PER_SEC * prescale cu).
Proof.
  intros pwm st st0 m clk cu m1 back Hclk HP HD HPlt HDlt Hok Hgs Hcr Hpr Hsar.
  pose proof (get_state_after_apply hw pwm st st0 m Hok Hgs Hcr Hpr Hsar) as Hb.
  fold cu m1 in Hb.
  assert (back = get_state_result hw st0 (u32 (duty_cycles cu))
                   (apply_cr (prescale cu) st) (u32 (period_cycles cu))
                   (u32 (duty_cycles cu))) as Hback
      by (subst back; now rewrite Hb).
  clearbody back. clear Hb Hcr Hpr Hsar Hgs Hok. subst back.
  unfold NSEC_PER_SEC in *.
  (* the clock rate and the cycle counts, free of wrap-around *)
  assert (apply_clkrate hw = clk) as Hrate
      by (apply ulong_small; fold clk; lia).
  assert (period st < 2 ^ 58 /\ duty_cycle st < 2 ^ 58) as [HP58 HD58] by nia.
  set (rawP := clk * period st / 1000000000).
  set (rawD := clk * duty_cycle st / 1000000000).
  assert (0 <= rawP < 2 ^ 28) as HrawP.
  { subst rawP. split; [apply Z.div_pos; nia|].
    apply Z.div_lt_upper_bound; lia. }
  assert (0 <= rawD < 2 ^ 28) as HrawD.
  { subst rawD. split; [apply Z.div_pos; nia|].
    apply Z.div_lt_upper_bound; lia. }
  assert (raw_period_cycles hw st = rawP) as HeqP.
  { unfold raw_period_cycles, do_div, NSEC_PER_SEC. rewrite Hrate.
    change (u32 1000000000) with 1000000000.
    rewrite (u64_small (period st)) by lia.
    rewrite !(u64_small (clk * period st)) by nia.
    fold rawP. apply ulong_small. lia. }
  assert (raw_duty_cycles hw st = rawD) as HeqD.
  { unfold raw_duty_cycles, do_div, NSEC_PER_SEC. rewrite Hrate.
    change (u32 1000000000) with 1000000000.
    rewrite (u64_small (duty_cycle st)) by lia.
    rewrite !(u64_small (clk * duty_cycle st)) by nia.
    fold rawD. apply ulong_small. lia. }
  assert (prescale cu = rawP / 65536 + 1) as Hpre
      by (unfold cu; now rewrite prescale_eq, HeqP).
  assert (1 <= prescale cu <= 4096) as Hprange.
  { rewrite Hpre. assert (0 <= rawP / 65536 < 4096); [|lia].
    split; [apply Z.div_pos; lia | apply Z.div_lt_upper_bound; lia]. }
  pose proof (period_cycles_range hw st) as Hpc. fold cu in Hpc.
  pose proof (scaled_period_le hw st) as Hsc. fold cu in Hsc.
  rewrite HeqP in Hsc.
  assert (duty_cycles cu = rawD / prescale cu) as Hdc
      by (unfold cu; now rewrite duty_cycles_eq, HeqD).
  assert (0 <= duty_cycles cu <= rawD) as Hdcr.
  { rewrite Hdc. split; [apply Z.div_pos; lia|].
    apply Z.div_le_upper_bound; nia. }
  assert (duty_cycles cu * prescale cu <= rawD) as Hdp.
  { rewrite Hdc, Z.mul_comm. apply Z.mul_div_le. lia. }
  (* what get_state computes *)
  assert (u32 (MX3_PWMCR_PRESCALER_GET (apply_cr (prescale cu) st))
          = prescale cu) as Hget.
  { rewrite apply_cr_prescaler, Z.mod_small by lia.
    replace (prescale cu - 1 + 1) with (prescale cu) by lia.
    apply u32_small. lia. }
  unfold get_state_result. cbn [period duty_cycle]. rewrite Hget.
  fold clk. rewrite (u32_small clk) by lia.
  rewrite (u32_small (period_cycles cu)) by lia.
  rewrite (u32_small (duty_cycles cu)) by lia.
  assert ((period_cycles cu >=? MX3_PWMPR_MAX) = false) as ->.
  { unfold MX3_PWMPR_MAX. rewrite Z.geb_leb. apply Z.leb_gt. lia. }
  rewrite (u32_small (period_cycles cu + 2)) by lia.
  replace (if en_set (apply_cr (prescale cu) st)
           then duty_cycles cu else duty_cycles cu)
    with (duty_cycles cu) by (now destruct (en_set _)).
  pose proof (cycles_to_ns_ceiling (prescale cu) clk (period_cycles cu + 2)
                Hclk ltac:(lia) ltac:(lia)) as HceilP.
  pose proof (cycles_to_ns_ceiling (prescale cu) clk (duty_cycles cu)
                Hclk ltac:(lia) ltac:(lia)) as HceilD.
  unfold NSEC_PER_SEC in *. cbv zeta in HceilP, HceilD.
  specialize (HceilP ltac:(nia)). specialize (HceilD ltac:(nia)).
  split; [split; lia|]. split.
  - apply (floor_then_ceiling clk (prescale cu) (duty_cycle st));
      try lia. cbv zeta. unfold NSEC_PER_SEC. fold rawD.
    rewrite <- Hdc. exact HceilD.
  - intros Hpos.
    apply (floor_then_ceiling clk (prescale cu) (period st)); try lia.
    cbv zeta. unfold NSEC_PER_SEC. fold rawP.
    assert (rawP / prescale cu = period_cycles cu + 2) as ->; [|exact HceilP].
    unfold cu. rewrite period_cycles_eq, HeqP. cbv zeta. fold cu.
    unfold cu in Hpos. rewrite period_cycles_eq, HeqP in Hpos.
    cbv zeta in Hpos. fold cu in Hpos.
    destruct (_ >? 2); lia.
Qed.

End RoundTripBounds.

(** ** Concrete runs *)

(** C1, counterexample to a guard write in every run of the scenario: at
    24 MHz the margin of 1.5us is 36 cycles, the counter at 150 is then
    outside the window before the new duty cycle of 200, and the new value
    is written with no guard. *)
Lemma erratum_scenario_without_guard :
  apply_counter_units (scenario_hw 24000000) scenario_24MHz
  = mk_counter_units 1 5000 200
  /\ imx_duty_cycle (imx scenario_machine) = 1000
  /\ writes_to MX3_PWMSAR
       (events_of (pwm_imx27_apply (scenario_hw 24000000) running_pwm
                                   scenario_24MHz) scenario_machine)
     = [200].
Proof. vm_compute. repeat split. Qed.

Lemma erratum_guard_conditions_witness :
  exists guard,
    writes_to MX3_PWMSAR
      (events_of (pwm_imx27_apply (scenario_hw 66000000) running_pwm
                                  scenario_66MHz) scenario_machine)
    = guard ++ [200]
    /\ (guard = [1000] \/ guard = [1000; 1000]).
Proof.
  destruct (erratum_guard_conditions (scenario_hw 66000000) running_pwm
              scenario_66MHz scenario_machine eq_refl)
    as (guard & Hsar & _ & _ & _ & Hscn).
  exists guard. split; [exact Hsar|].
  apply Hscn; try reflexivity.
  vm_compute. discriminate.
Defined.

(** C2, counterexample to [duty_cycles <= period_cycles]: at 66 MHz a
    period of 1 ms with a duty cycle of 100% gives 33000 duty cycles
    against a period value of 32998, two below the hardware period.  The
    duty value even exceeds the hardware period
    when [clkrate * period] wraps around at 2^64, or when the period in
    clock cycles does not fit the 32-bit [unsigned long]. *)
Lemma full_duty_exceeds_period_value :
  duty_cycle full_duty <= period full_duty
  /\ apply_counter_units running_hw full_duty
     = mk_counter_units 2 32998 33000
  /\ ~ (duty_cycles (apply_counter_units running_hw full_duty)
        <= period_cycles (apply_counter_units running_hw full_duty))
  /\ apply_counter_units running_hw overflowing_period
     = mk_counter_units 1 0 66000000
  /\ apply_counter_units no_clock_hw seventy_seconds
     = mk_counter_units 4960 65528 798387.
Proof.
  split; [vm_compute; discriminate|]. split; [reflexivity|].
  split; [|split; reflexivity].
  vm_compute. intros H. apply H. reflexivity.
Qed.

Lemma counter_units_bounds_witness :
  0 <= duty_cycles (apply_counter_units running_hw full_duty)
    <= period_cycles (apply_counter_units running_hw full_duty) + 2.
Proof.
  apply (counter_units_bounds running_hw full_duty);
    vm_compute; congruence.
Defined.

(** C3, counterexample to a round trip within one prescaled cycle for
    every request.  At 1 MHz a period of 500 ns is read back as
    2000 ns, the two cycles the hardware cannot go below: 1500 ns more,
    with a prescaled clock cycle of 1000 ns.  At 66 MHz a period of 5 s
    needs the prescaler 5036, which the 12-bit field keeps as 940: the
    period read back is about 0.93 s. *)
Lemma round_trip_off_by_more_than_a_cycle :
  period (round_trip (regfile_hw LP64 1000000) short_period) = 2000
  /\ prescale (apply_counter_units (regfile_hw LP64 1000000) short_period) = 1
  /\ ~ (Z.abs (period (round_trip (regfile_hw LP64 1000000) short_period)
               - period short_period) * 1000000
        <= NSEC_PER_SEC * 1)
  /\ period (round_trip (regfile_hw LP64 66000000) long_period) = 933277576
  /\ prescale (apply_counter_units (regfile_hw LP64 66000000) long_period)
     = 5036.
Proof.
  vm_compute. repeat split; intros H; apply H; reflexivity.
Qed.

Lemma regfile_holds a rate tr0 reg :
  holds_after (regfile_hw a rate) tr0 reg (u32 (regfile_mmio tr0 reg)).
Proof.
  intros tr' Hnw. cbn [mmio regfile_hw]. unfold regfile_mmio.
  rewrite writes_to_app.
  replace (writes_to reg tr') with (@nil Z); [now rewrite app_nil_r|].
  induction tr' as [|e tr' IH]; [reflexivity|].
  cbn [no_writes forallb] in Hnw. apply andb_true_iff in Hnw as [He Hnw].
  destruct e; try discriminate; cbn [writes_to]; now apply IH.
Qed.

Lemma apply_get_state_round_trip_witness :
  period (round_trip (regfile_hw LP64 66000000) half_duty) <= 1000000
  /\ (1000000 - period (round_trip (regfile_hw LP64 66000000) half_duty))
     * 66000000 < NSEC_PER_SEC * 2.
Proof.
  pose proof (apply_get_state_round_trip (regfile_hw LP64 66000000)
                stopped_pwm half_duty stopped_pwm.(state) fresh_machine)
    as H. cbv zeta in H.
  apply H.
  - vm_compute. split; reflexivity.
  - vm_compute. discriminate.
  - vm_compute. discriminate.
  - vm_compute. reflexivity.
  - vm_compute. reflexivity.
  - vm_compute. reflexivity.
  - vm_compute. discriminate.
  - apply (regfile_holds LP64 66000000).
  - apply (regfile_holds LP64 66000000).
  - intros _. apply (regfile_holds LP64 66000000).
  - vm_compute. reflexivity.
Defined.

Lemma apply_fifo_full_completes_witness :
  fst (pwm_imx27_apply fifo_full_hw running_pwm half_duty fresh_machine) = 0
  /\ exists rest,
       events_of (pwm_imx27_apply fifo_full_hw running_pwm half_duty)
                 fresh_machine
       = [EvReadl MX3_PWMSR 4; EvMsleep 1; EvReadl MX3_PWMSR 4;
          EvDevWarn "there is no free FIFO slot"] ++ rest
       /\ last_opt (writes_to MX3_PWMSAR rest) = Some 16500.
Proof.
  destruct (apply_fifo_full_completes fifo_full_hw running_pwm half_duty
              fresh_machine) as [Hfull _].
  destruct (Hfull eq_refl eq_refl eq_refl) as (Hret & Hev & _).
  split; [exact Hret | exact Hev].
Defined.

Lemma disabled_duty_from_cache_witness :
  duty_cycle (snd (fst (pwm_imx27_get_state stuck_reset_hw
                          stopped_pwm.(state) scenario_machine))) = 15152
  /\ imx_duty_cycle
       (imx (snd (pwm_imx27_apply (scenario_hw 66000000) running_pwm
                    scenario_66MHz scenario_machine))) = 200.
Proof.
  destruct (disabled_duty_from_cache stuck_reset_hw) as [Hget _].
  destruct (disabled_duty_from_cache (scenario_hw 66000000)) as [_ Happly].
  split.
  - destruct (Hget stopped_pwm.(state) scenario_machine)
      as (_ & _ & Hduty & _);
      [vm_compute; discriminate | reflexivity | exact Hduty].
  - destruct (Happly running_pwm scenario_66MHz scenario_machine eq_refl)
      as [Hcache _]. exact Hcache.
Defined.

Lemma apply_control_word_witness :
  exists cr,
    last_opt (writes_to MX3_PWMCR
                (events_of (pwm_imx27_apply running_hw running_pwm
                                            inversed_off) fresh_machine))
    = Some cr
    /\ Z.ldiff cr apply_cr_variable = apply_cr_fixed
    /\ FIELD_GET MX3_PWMCR_POUTC cr = MX3_PWMCR_POUTC_INVERTED
    /\ en_set cr = false.
Proof.
  destruct (apply_control_word running_hw running_pwm inversed_off
              fresh_machine eq_refl)
    as (cr & Hlast & _ & _ & _ & _ & _ & Hfixed & _ & Hpol & Hen).
  exists cr. repeat split; assumption.
Defined.


(** * Further properties *)

(** ** Measures of the procedures' events *)

Lemma clk_balance_app tr1 tr2 :
  clk_balance (tr1 ++ tr2) = clk_balance tr1 + clk_balance tr2.
Proof.
  induction tr1 as [|e tr1 IH]; [reflexivity|].
  unfold clk_balance in *. cbn [app fold_right]. rewrite IH. lia.
Qed.

Lemma reg_writes_app tr1 tr2 :
  reg_writes (tr1 ++ tr2) = reg_writes tr1 ++ reg_writes tr2.
Proof.
  induction tr1 as [|e tr1 IH]; [reflexivity|].
  destruct e; cbn [app reg_writes]; now rewrite IH.
Qed.

Lemma reg_accesses_app tr1 tr2 :
  reg_accesses (tr1 ++ tr2) = reg_accesses tr1 ++ reg_accesses tr2.
Proof.
  induction tr1 as [|e tr1 IH]; [reflexivity|].
  destruct e; cbn [app reg_accesses]; now rewrite IH.
Qed.

Lemma poll_events_measures polls :
  clk_balance (poll_events polls) = 0
  /\ reg_writes (poll_events polls) = []
  /\ forallb (fun e => negb (is_irq e)) (poll_events polls) = true.
Proof.
  induction polls as [|cr polls (IH1 & IH2 & IH3)]; [repeat split|].
  cbn. repeat split; assumption.
Qed.

Lemma sw_reset_measures polls cr :
  clk_balance (sw_reset_events polls cr) = 0
  /\ reg_writes (sw_reset_events polls cr) = [(MX3_PWMCR, MX3_PWMCR_SWR)]
  /\ forallb (fun e => negb (is_irq e)) (sw_reset_events polls cr) = true.
Proof.
  destruct (poll_events_measures (polls ++ [cr])) as (H1 & H2 & H3).
  unfold sw_reset_events.
  cbn [clk_balance fold_right clk_delta reg_writes forallb is_irq negb andb].
  fold (clk_balance (poll_events (polls ++ [cr])
                     ++ (if swr_set cr
                         then [EvDevWarn "software reset timeout"] else []))).
  rewrite clk_balance_app, reg_writes_app, forallb_app, H1, H2, H3.
  destruct (swr_set cr); repeat split.
Qed.

Lemma wait_fifo_slot_measures hw pwm tr :
  clk_balance (wait_fifo_slot_events hw pwm tr) = 0
  /\ reg_writes (wait_fifo_slot_events hw pwm tr) = []
  /\ forallb (fun e => negb (is_irq e)) (wait_fifo_slot_events hw pwm tr)
     = true.
Proof.
  unfold wait_fifo_slot_events.
  destruct (_ =? MX3_PWMSR_FIFOAV_4WORDS); [|repeat split].
  cbn. destruct (_ =? _); repeat split.
Qed.

(** The workaround's events are fit for a section with interrupts off, and
    its writes all go to the sample register. *)
Lemma erratum_guard_measures hw cu period_us c cr val old guard :
  0 <= period_us ->
  erratum_guard hw cu period_us c cr val old guard ->
  clk_balance guard = 0
  /\ forallb atomic_ok guard = true
  /\ reg_writes guard = map (fun v => (MX3_PWMSAR, v))
                            (writes_to MX3_PWMSAR guard).
Proof.
  intros Hpos H.
  inversion H; subst; try (cbn; repeat split; fail).
  assert (period_us = 0 \/ period_us = 1) as [-> | ->] by lia;
    destruct (plat_abi hw); repeat split.
Qed.

Lemma apply_period_us_nonneg hw val cr : 0 <= apply_period_us hw val cr.
Proof. unfold apply_period_us. apply ulong_range. Qed.

Lemma commit_measures hw cu st pr cr sr val old guard :
  erratum_guard hw cu (apply_period_us hw val cr) (apply_margin hw) cr
                (fifoav sr) old guard ->
  clk_balance (commit_events cu st pr cr sr guard) = - b2z (negb (enabled st))
  /\ reg_writes (commit_events cu st pr cr sr guard)
     = map (fun v => (MX3_PWMSAR, v)) (writes_to MX3_PWMSAR guard)
       ++ [(MX3_PWMSAR, u32 (duty_cycles cu));
           (MX3_PWMPR, u32 (period_cycles cu));
           (MX3_PWMCR, apply_cr (prescale cu) st)].
Proof.
  intros Hg.
  apply erratum_guard_measures in Hg as (Hb & _ & Hw);
    [|apply apply_period_us_nonneg].
  unfold commit_events.
  rewrite !clk_balance_app, !reg_writes_app, Hb, Hw.
  destruct (enabled st); split; reflexivity.
Qed.

Lemma duty_cycles_nonneg hw st : 0 <= duty_cycles (apply_counter_units hw st).
Proof.
  rewrite duty_cycles_eq. pose proof (prescale_pos hw st).
  apply Z.div_pos; [apply ulong_range | lia].
Qed.

(** ** Apply and the clocks *)

(** The clock references of each way through apply. *)
Lemma apply_run_clk_balance hw pwm st m r ev chip' :
  apply_run hw pwm st m r ev chip' ->
  clk_balance ev
  = if r =? 0 then b2z (enabled st) - b2z (enabled (state pwm)) else 0.
Proof.
  intros Hrun.
  inversion Hrun as [pr cr sr guard Hen Hf | r' Hen Hr' Hne
                     | polls cr0 pr cr sr guard Hen Hclk _ Hf]; subst.
  - destruct Hf as (_ & _ & _ & Hg).
    apply (commit_measures hw _ st pr cr sr) in Hg as [Hb _].
    destruct (wait_fifo_slot_measures hw pwm (trace m)) as (Hw & _).
    rewrite clk_balance_app, Hw, Hb, Hen. destruct (enabled st); reflexivity.
  - apply Z.eqb_neq in Hne as Hne'. rewrite Hne'.
    cbn. destruct (s32 _) as [|p|p]; [congruence | reflexivity | reflexivity].
  - destruct Hf as (_ & _ & _ & Hg).
    apply (commit_measures hw _ st pr cr sr) in Hg as [Hb _].
    destruct (sw_reset_measures polls cr0) as (Hs & _).
    change (EvClkPrepareEnable 0 :: sw_reset_events polls cr0
            ++ commit_events (apply_counter_units hw st) st pr cr sr guard)
      with ([EvClkPrepareEnable 0] ++ sw_reset_events polls cr0
            ++ commit_events (apply_counter_units hw st) st pr cr sr guard).
    rewrite !clk_balance_app, Hs, Hb, Hen. destruct (enabled st); reflexivity.
Qed.

(** X1: a successful apply changes the number of clock references the
    driver holds by exactly the change of the enable state: one more when
    a stopped PWM is started, one less when a running PWM is stopped, none
    otherwise.  A failed apply holds none. *)
Theorem apply_clk_balance :
  forall (hw : platform) (pwm : pwm_device) (st : pwm_state) (m : machine),
    (fst (pwm_imx27_apply hw pwm st m) = 0 ->
     clk_balance (events_of (pwm_imx27_apply hw pwm st) m)
     = b2z (enabled st) - b2z (enabled (state pwm)))
    /\ (fst (pwm_imx27_apply hw pwm st m) <> 0 ->
        clk_balance (events_of (pwm_imx27_apply hw pwm st) m) = 0).
Proof.
  intros hw pwm st m.
  destruct (apply_runs hw pwm st m) as (r & ev & chip' & Hr & Hrun).
  rewrite (runs_events _ _ _ _ _ Hr).
  apply runs_result in Hr as [-> _].
  rewrite (apply_run_clk_balance _ _ _ _ _ _ _ Hrun).
  split; intros H.
  - now rewrite H.
  - apply Z.eqb_neq in H. now rewrite H.
Qed.

Lemma apply_clk_balance_witness :
  clk_balance (events_of (pwm_imx27_apply stuck_reset_hw stopped_pwm
                                          half_duty) fresh_machine) = 1
  /\ clk_balance (events_of (pwm_imx27_apply no_clock_hw stopped_pwm
                                             half_duty) fresh_machine) = 0.
Proof.
  split.
  - apply (proj1 (apply_clk_balance stuck_reset_hw stopped_pwm half_duty
                    fresh_machine)). reflexivity.
  - apply (proj2 (apply_clk_balance no_clock_hw stopped_pwm half_duty
                    fresh_machine)). vm_compute. discriminate.
Defined.

(** ** Apply: order and atomicity of the register writes *)

(** X2: a successful apply disables interrupts exactly once and restores
    them.  In between it only accesses registers and busy-waits for at
    most 3 microseconds: it does not sleep, warn or touch the clocks.  All
    its writes to the sample register happen there. *)
Theorem apply_critical_section :
  forall (hw : platform) (pwm : pwm_device) (st : pwm_state) (m : machine),
    fst (pwm_imx27_apply hw pwm st m) = 0 ->
    exists pre crit post,
      events_of (pwm_imx27_apply hw pwm st) m
      = pre ++ [EvIrqSave] ++ crit ++ [EvIrqRestore] ++ post
      /\ forallb (fun e => negb (is_irq e)) pre = true
      /\ forallb atomic_ok crit = true
      /\ forallb (fun e => negb (is_irq e)) post = true
      /\ writes_to MX3_PWMSAR pre = []
      /\ writes_to MX3_PWMSAR post = [].
Proof.
  intros hw pwm st m Hok.
  destruct (apply_runs hw pwm st m) as (r & ev & chip' & Hr & Hrun).
  rewrite (runs_events _ _ _ _ _ Hr).
  apply runs_result in Hr as [Hr _]. rewrite Hr in Hok.
  set (cu := apply_counter_units hw st) in *.
  assert (exists head pr cr sr guard,
             ev = head ++ commit_events cu st pr cr sr guard
             /\ forallb (fun e => negb (is_irq e)) head = true
             /\ writes_to MX3_PWMSAR head = []
             /\ forallb atomic_ok guard = true)
    as (head & pr & cr & sr & guard & -> & Hh1 & Hh2 & Hg).
  { inversion Hrun as [pr cr sr guard Hen Hf | 
                       | polls cr0 pr cr sr guard Hen Hclk _ Hf];
      subst; try congruence;
      destruct Hf as (_ & _ & _ & Hg);
      apply erratum_guard_measures in Hg as (_ & Hg & _);
      try apply apply_period_us_nonneg.
    - exists (wait_fifo_slot_events hw pwm (trace m)), pr, cr, sr, guard.
      destruct (wait_fifo_slot_measures hw pwm (trace m)) as (_ & _ & Hi).
      rewrite writes_to_wait_fifo_slot. auto.
    - exists (EvClkPrepareEnable 0 :: sw_reset_events polls cr0),
        pr, cr, sr, guard.
      destruct (sw_reset_measures polls cr0) as (_ & _ & Hi).
      cbn [forallb is_irq negb andb writes_to].
      rewrite writes_to_sw_reset. auto. }
  exists (head ++ [EvReadl MX3_PWMPR pr; EvReadl MX3_PWMCR cr]),
    ([EvReadl MX3_PWMSR sr] ++ guard
     ++ [EvWritel MX3_PWMSAR (u32 (duty_cycles cu))]),
    ([EvWritel MX3_PWMPR (u32 (period_cycles cu));
      EvWritel MX3_PWMCR (apply_cr (prescale cu) st)]
     ++ (if enabled st then [] else [EvClkDisableUnprepare])).
  split; [unfold commit_events; rewrite <- !app_assoc; reflexivity|].
  rewrite !forallb_app, writes_to_app, Hh1, Hh2, Hg.
  destruct (enabled st); repeat split.
Qed.

Lemma apply_critical_section_witness :
  exists pre crit post,
    events_of (pwm_imx27_apply (scenario_hw 66000000) running_pwm
                               scenario_66MHz) scenario_machine
    = pre ++ [EvIrqSave] ++ crit ++ [EvIrqRestore] ++ post
    /\ forallb atomic_ok crit = true.
Proof.
  destruct (apply_critical_section (scenario_hw 66000000) running_pwm
              scenario_66MHz scenario_machine eq_refl)
    as (pre & crit & post & Hev & _ & Hcrit & _).
  exists pre, crit, post. split; assumption.
Defined.

(** X3: the register writes of a successful apply, in order: the reset
    word when the PWM was stopped; then to the sample register at most two
    copies of the cached duty cycle and the new duty cycle; then the
    period register; and last the control register, which carries the
    enable bit. *)
Theorem apply_write_order :
  forall (hw : platform) (pwm : pwm_device) (st : pwm_state) (m : machine),
    let cu := apply_counter_units hw st in
    let old := u32 (imx_duty_cycle (imx m)) in
    fst (pwm_imx27_apply hw pwm st m) = 0 ->
    exists guard,
      reg_writes (events_of (pwm_imx27_apply hw pwm st) m)
      = (if enabled (state pwm) then [] else [(MX3_PWMCR, MX3_PWMCR_SWR)])
        ++ map (fun v => (MX3_PWMSAR, v)) guard
        ++ [(MX3_PWMSAR, u32 (duty_cycles cu));
            (MX3_PWMPR, u32 (period_cycles cu));
            (MX3_PWMCR, apply_cr (prescale cu) st)]
      /\ (guard = [] \/ guard = [old] \/ guard = [old; old]).
Proof.
  intros hw pwm st m cu old Hok. subst cu.
  destruct (apply_runs hw pwm st m) as (r & ev & chip' & Hr & Hrun).
  rewrite (runs_events _ _ _ _ _ Hr).
  apply runs_result in Hr as [Hr _]. rewrite Hr in Hok.
  assert (u32 old = old) as Hold by apply u32_idem.
  inversion Hrun as [pr cr sr guard Hen Hf |
                     | polls cr0 pr cr sr guard Hen Hclk _ Hf];
    subst; try congruence;
    destruct Hf as (_ & _ & _ & Hg);
    pose proof (erratum_guard_cases _ _ _ _ _ _ _ _ Hg) as [Hshape _];
    fold old in Hshape; rewrite Hold in Hshape;
    apply (commit_measures hw _ st pr cr sr) in Hg as [_ Hw];
    exists (writes_to MX3_PWMSAR guard); (split; [|exact Hshape]);
    rewrite Hen.
  - destruct (wait_fifo_slot_measures hw pwm (trace m)) as (_ & Hnw & _).
    now rewrite reg_writes_app, Hnw, Hw.
  - destruct (sw_reset_measures polls cr0) as (_ & Hs & _).
    cbn [reg_writes]. now rewrite reg_writes_app, Hs, Hw.
Qed.

Lemma apply_write_order_witness :
  exists guard,
    reg_writes (events_of (pwm_imx27_apply stuck_reset_hw stopped_pwm
                                           half_duty) fresh_machine)
    = [(MX3_PWMCR, MX3_PWMCR_SWR)]
      ++ map (fun v => (MX3_PWMSAR, v)) guard
      ++ [(MX3_PWMSAR, 16500); (MX3_PWMPR, 32998); (MX3_PWMCR, 63045649)]
    /\ (guard = [] \/ guard = [0] \/ guard = [0; 0]).
Proof.
  exact (apply_write_order stuck_reset_hw stopped_pwm half_duty
           fresh_machine eq_refl).
Defined.

(** X4: repeating a request does not trigger the erratum workaround: when
    apply has succeeded, a second apply of the same request writes the
    sample register once, with the same value, and leaves the cache as it
    is, whatever the device shows. *)
Theorem apply_twice_no_guard :
  forall (hw : platform) (pwm pwm' : pwm_device) (st : pwm_state)
         (m : machine),
    let cu := apply_counter_units hw st in
    let m1 := snd (pwm_imx27_apply hw pwm st m) in
    fst (pwm_imx27_apply hw pwm st m) = 0 ->
    fst (pwm_imx27_apply hw pwm' st m1) = 0 ->
    reg_writes (events_of (pwm_imx27_apply hw pwm' st) m1)
    = (if enabled (state pwm') then [] else [(MX3_PWMCR, MX3_PWMCR_SWR)])
      ++ [(MX3_PWMSAR, u32 (duty_cycles cu));
          (MX3_PWMPR, u32 (period_cycles cu));
          (MX3_PWMCR, apply_cr (prescale cu) st)]
    /\ imx (snd (pwm_imx27_apply hw pwm' st m1)) = imx m1.
Proof.
  intros hw pwm pwm' st m cu m1 Hok1 Hok2. subst cu.
  destruct (apply_updates_cache hw pwm st m Hok1) as [Hc1 _].
  destruct (apply_updates_cache hw pwm' st m1 Hok2) as [Hc2 _].
  fold m1 in Hc1. cbv zeta in Hc1, Hc2.
  split; [|now rewrite Hc1, Hc2].
  destruct (apply_runs hw pwm' st m1) as (r & ev & chip' & Hr & Hrun).
  rewrite (runs_events _ _ _ _ _ Hr).
  apply runs_result in Hr as [Hr _]. rewrite Hr in Hok2.
  pose proof (duty_cycles_nonneg hw st) as Hpos.
  assert (u32 (duty_cycles (apply_counter_units hw st))
          <= duty_cycles (apply_counter_units hw st)) as Hle
      by (apply Z.mod_le; lia).
  inversion Hrun as [pr cr sr guard Hen Hf |
                     | polls cr0 pr cr sr guard Hen Hclk _ Hf];
    subst; try congruence;
    destruct Hf as (_ & _ & _ & Hg);
    rewrite Hc1 in Hg; cbn [imx_duty_cycle] in Hg; rewrite u32_idem in Hg;
    pose proof (erratum_guard_cases _ _ _ _ _ _ _ _ Hg) as [_ Hcond];
    assert (writes_to MX3_PWMSAR guard = []) as Hnone
        by (destruct (writes_to MX3_PWMSAR guard) eqn:E; [reflexivity|];
            destruct Hcond as [Hlt _]; [discriminate | lia]);
    apply (commit_measures hw _ st pr cr sr) in Hg as [_ Hw];
    rewrite Hnone in Hw; rewrite Hen.
  - destruct (wait_fifo_slot_measures hw pwm' (trace m1)) as (_ & Hnw & _).
    now rewrite reg_writes_app, Hnw, Hw.
  - destruct (sw_reset_measures polls cr0) as (_ & Hs & _).
    cbn [reg_writes]. now rewrite reg_writes_app, Hs, Hw.
Qed.

Lemma apply_twice_no_guard_witness :
  reg_writes
    (events_of (pwm_imx27_apply (scenario_hw 66000000) running_pwm
                                scenario_66MHz)
       (snd (pwm_imx27_apply (scenario_hw 66000000) running_pwm
                             scenario_66MHz scenario_machine)))
  = [(MX3_PWMSAR, 200); (MX3_PWMPR, 5000); (MX3_PWMCR, 63045633)].
Proof.
  apply (apply_twice_no_guard (scenario_hw 66000000) running_pwm running_pwm
           scenario_66MHz scenario_machine); reflexivity.
Defined.

(** ** Apply: sleeping *)

Lemma sleeps_app tr1 tr2 : sleeps (tr1 ++ tr2) = sleeps tr1 ++ sleeps tr2.
Proof. apply filter_app. Qed.

Lemma sleeps_poll_events polls :
  sleeps (poll_events polls)
  = repeat (EvUsleepRange 200 1000) (List.length polls).
Proof.
  induction polls as [|cr polls IH]; [reflexivity|].
  cbn. f_equal. exact IH.
Qed.

Lemma sleeps_commit hw cu st pr cr sr val old guard :
  erratum_guard hw cu (apply_period_us hw val cr) (apply_margin hw) cr
                (fifoav sr) old guard ->
  sleeps (commit_events cu st pr cr sr guard) = [].
Proof.
  intros Hg. unfold commit_events. rewrite !sleeps_app.
  replace (sleeps guard) with (@nil event)
    by (inversion Hg; reflexivity).
  destruct (enabled st); reflexivity.
Qed.

(** X5: how long a successful apply can block.  On a running PWM with a
    free FIFO slot it does not sleep at all; with a full FIFO it sleeps
    once, for the recorded period in milliseconds.  On a stopped PWM it
    sleeps only in the reset, between one and six times for 200 to 1000
    microseconds. *)
Theorem apply_sleeps :
  forall (hw : platform) (pwm : pwm_device) (st : pwm_state) (m : machine),
    let ev := events_of (pwm_imx27_apply hw pwm st) m in
    let sr := u32 (mmio hw (trace m) MX3_PWMSR) in
    fst (pwm_imx27_apply hw pwm st m) = 0 ->
    (enabled (state pwm) = true ->
     fifoav sr <> MX3_PWMSR_FIFOAV_4WORDS -> sleeps ev = [])
    /\ (enabled (state pwm) = true ->
        fifoav sr = MX3_PWMSR_FIFOAV_4WORDS ->
        sleeps ev
        = [EvMsleep (u32 (DIV_ROUND_UP_ULL (period (state pwm))
                                           NSEC_PER_MSEC))])
    /\ (enabled (state pwm) = false ->
        exists n, (1 <= n <= 6)%nat
                  /\ sleeps ev = repeat (EvUsleepRange 200 1000) n).
Proof.
  intros hw pwm st m ev sr Hok. subst ev.
  destruct (apply_runs hw pwm st m) as (r & ev & chip' & Hr & Hrun).
  rewrite (runs_events _ _ _ _ _ Hr).
  apply runs_result in Hr as [Hr _]. rewrite Hr in Hok.
  inversion Hrun as [pr cr sr' guard Hen Hf |
                     | polls cr0 pr cr sr' guard Hen Hclk Hreset Hf];
    subst; try congruence;
    destruct Hf as (_ & _ & _ & Hg);
    apply (sleeps_commit hw _ st pr cr sr') in Hg;
    rewrite ?sleeps_app, ?Hg, ?app_nil_r.
  - split; [|split]; [intros _ Hfree | intros _ Hfull | congruence].
    + unfold wait_fifo_slot_events. fold sr.
      apply Z.eqb_neq in Hfree. now rewrite Hfree.
    + unfold wait_fifo_slot_events. fold sr.
      rewrite Hfull, Z.eqb_refl, sleeps_app.
      destruct (_ =? _); reflexivity.
  - split; [|split]; [congruence | congruence | intros _].
    exists (S (List.length polls)).
    destruct Hreset as (Hlen & _). split; [lia|].
    change (EvClkPrepareEnable 0 :: sw_reset_events polls cr0
            ++ commit_events (apply_counter_units hw st) st pr cr sr' guard)
      with ([EvClkPrepareEnable 0] ++ sw_reset_events polls cr0
            ++ commit_events (apply_counter_units hw st) st pr cr sr' guard).
    rewrite !sleeps_app, Hg, app_nil_r. unfold sw_reset_events.
    change (sleeps [EvClkPrepareEnable 0]) with (@nil event).
    cbn [app sleeps filter is_sleep].
    fold (sleeps (poll_events (polls ++ [cr0])
                  ++ (if swr_set cr0
                      then [EvDevWarn "software reset timeout"] else []))).
    rewrite sleeps_app, sleeps_poll_events, length_app.
    replace (sleeps (if swr_set cr0
                     then [EvDevWarn "software reset timeout"] else []))
      with (@nil event) by (destruct (swr_set cr0); reflexivity).
    rewrite app_nil_r, Nat.add_comm. reflexivity.
Qed.

Lemma apply_sleeps_witness :
  sleeps (events_of (pwm_imx27_apply running_hw running_pwm half_duty)
                    fresh_machine) = []
  /\ sleeps (events_of (pwm_imx27_apply fifo_full_hw running_pwm half_duty)
                       fresh_machine) = [EvMsleep 1]
  /\ exists n, (1 <= n <= 6)%nat
               /\ sleeps (events_of (pwm_imx27_apply stuck_reset_hw
                                       stopped_pwm half_duty) fresh_machine)
                  = repeat (EvUsleepRange 200 1000) n.
Proof.
  split; [|split].
  - apply (proj1 (apply_sleeps running_hw running_pwm half_duty
                    fresh_machine eq_refl)); [reflexivity|].
    vm_compute. discriminate.
  - apply (proj1 (proj2 (apply_sleeps fifo_full_hw running_pwm half_duty
                           fresh_machine eq_refl))); reflexivity.
  - apply (proj2 (proj2 (apply_sleeps stuck_reset_hw stopped_pwm half_duty
                           fresh_machine eq_refl))). reflexivity.
Defined.

(** ** get_state *)

(** The events of a get_state that got its clocks. *)
Lemma get_state_trace hw st0 m :
  let r := s32 (clk_enable_result hw (trace m)) in
  let cr := u32 (mmio hw (trace m ++ [EvClkPrepareEnable r]) MX3_PWMCR) in
  let field := FIELD_GET MX3_PWMCR_POUTC cr in
  0 <= r ->
  exists pr sar,
    events_of (pwm_imx27_get_state hw st0) m
    = [EvClkPrepareEnable r; EvReadl MX3_PWMCR cr]
      ++ (if negb (field =? MX3_PWMCR_POUTC_NORMAL)
             && negb (field =? MX3_PWMCR_POUTC_INVERTED)
          then [EvDevWarn "can't set polarity, output disconnected"]
          else [])
      ++ [EvReadl MX3_PWMPR pr]
      ++ (if en_set cr then [EvReadl MX3_PWMSAR sar] else [])
      ++ [EvClkDisableUnprepare].
Proof.
  intros r cr field Hclk.
  unfold events_of, pwm_imx27_get_state, bind, clk_bulk_prepare_enable.
  fold r. apply Z.ltb_ge in Hclk. rewrite Hclk.
  unfold readl at 1. cbn [trace imx]. fold cr. fold field.
  set (warn := negb (field =? MX3_PWMCR_POUTC_NORMAL)
               && negb (field =? MX3_PWMCR_POUTC_INVERTED)).
  set (w := if warn
            then [EvDevWarn "can't set polarity, output disconnected"]
            else []).
  assert (when warn (dev_warn "can't set polarity, output disconnected")
            (mk_machine ((trace m ++ [EvClkPrepareEnable r])
                         ++ [EvReadl MX3_PWMCR cr]) (imx m))
          = (tt, mk_machine (trace m ++ [EvClkPrepareEnable r;
                                         EvReadl MX3_PWMCR cr] ++ w)
                            (imx m))) as ->.
  { subst w. destruct warn; unfold when, dev_warn, emit, ret;
      cbn [trace imx]; rewrite <- ?app_assoc, ?app_nil_r; reflexivity. }
  unfold readl at 1. cbn [trace imx].
  set (pr := u32 (mmio hw _ MX3_PWMPR)).
  fold (en_set cr).
  exists pr.
  destruct (en_set cr).
  - unfold readl. cbn [trace imx].
    set (sar := u32 (mmio hw _ MX3_PWMSAR)). exists sar.
    unfold clk_bulk_disable_unprepare, emit, ret. cbn [trace imx snd].
    rewrite <- !app_assoc, skipn_app, skipn_all, Nat.sub_diag.
    reflexivity.
  - exists 0.
    unfold get_duty_cycle, clk_bulk_disable_unprepare, emit, ret.
    cbn [trace imx snd].
    rewrite <- !app_assoc, skipn_app, skipn_all, Nat.sub_diag.
    reflexivity.
Qed.

(** X6: get_state only looks.  Whatever the clocks and the device answer,
    it writes no register and leaves the cached duty cycle as it is.  When
    enabling the clocks returned 0 or an error, it gives back every clock
    reference it took.  When enabling the clocks failed, it returns the
    error code and the caller's state as it was, and accesses no register
    at all. *)
Theorem get_state_read_only :
  forall (hw : platform) (st0 : pwm_state) (m : machine),
    let r := s32 (clk_enable_result hw (trace m)) in
    let ev := events_of (pwm_imx27_get_state hw st0) m in
    reg_writes ev = []
    /\ imx (snd (pwm_imx27_get_state hw st0 m)) = imx m
    /\ (r <= 0 -> clk_balance ev = 0)
    /\ (r < 0 ->
        fst (pwm_imx27_get_state hw st0 m) = (r, st0)
        /\ reg_accesses ev = []).
Proof.
  intros hw st0 m r ev. subst ev.
  destruct (Z.ltb_spec r 0) as [Hneg|Hok].
  - assert (pwm_imx27_get_state hw st0 m
            = (r, st0, mk_machine (trace m ++ [EvClkPrepareEnable r])
                                  (imx m))) as Hrun.
    { unfold pwm_imx27_get_state, bind, clk_bulk_prepare_enable. fold r.
      apply Z.ltb_lt in Hneg. now rewrite Hneg. }
    unfold events_of. rewrite Hrun. cbn [fst snd trace imx].
    rewrite skipn_app, skipn_all, Nat.sub_diag. cbn.
    repeat split. intros _.
    destruct r as [|p|p]; [lia | lia | reflexivity].
  - destruct (get_state_trace hw st0 m Hok) as (pr & sar & ->).
    destruct (get_state_runs hw st0 m Hok)
      as (cr' & pr' & sar' & ev & Hr & _).
    apply runs_result in Hr as [_ Himx]. fold r.
    split; [|split; [exact Himx|split; [|lia]]].
    + rewrite !reg_writes_app. cbn.
      destruct (_ && _), (en_set _); reflexivity.
    + intros Hle. assert (r = 0) as -> by lia.
      rewrite !clk_balance_app. cbn.
      destruct (_ && _), (en_set _); reflexivity.
Qed.

Lemma get_state_read_only_witness :
  clk_balance (events_of (pwm_imx27_get_state running_hw half_duty)
                         fresh_machine) = 0
  /\ fst (pwm_imx27_get_state no_clock_hw half_duty fresh_machine)
     = (-5, half_duty).
Proof.
  split.
  - apply (get_state_read_only running_hw half_duty fresh_machine).
    vm_compute. discriminate.
  - apply (get_state_read_only no_clock_hw half_duty fresh_machine).
    reflexivity.
Defined.

Lemma apply_cr_decode p st :
  FIELD_GET MX3_PWMCR_POUTC (apply_cr p st)
  = match polarity st with
    | PWM_POLARITY_NORMAL => MX3_PWMCR_POUTC_NORMAL
    | PWM_POLARITY_INVERSED => MX3_PWMCR_POUTC_INVERTED
    end
  /\ en_set (apply_cr p st) = enabled st.
Proof.
  unfold FIELD_GET, en_set.
  rewrite (apply_cr_land p st MX3_PWMCR_POUTC) by reflexivity.
  rewrite (apply_cr_land p st MX3_PWMCR_EN) by reflexivity.
  unfold apply_cr.
  destruct (polarity st), (enabled st); split; reflexivity.
Qed.

(** X7: polarity and enable survive the round trip.  When apply has
    succeeded and the control register reads back as apply wrote it,
    get_state reports the polarity and the enable state of the request,
    and does not warn of a disconnected output. *)
Theorem apply_get_state_polarity_enabled :
  forall (hw : platform) (pwm : pwm_device) (st st0 : pwm_state)
         (m : machine),
    let cu := apply_counter_units hw st in
    let m1 := snd (pwm_imx27_apply hw pwm st m) in
    let back := snd (fst (pwm_imx27_get_state hw st0 m1)) in
    fst (pwm_imx27_apply hw pwm st m) = 0 ->
    0 <= s32 (clk_enable_result hw (trace m1)) ->
    holds_after hw (trace m1) MX3_PWMCR (apply_cr (prescale cu) st) ->
    polarity back = polarity st
    /\ enabled back = enabled st
    /\ ~ In (EvDevWarn "can't set polarity, output disconnected")
            (events_of (pwm_imx27_get_state hw st0) m1).
Proof.
  intros hw pwm st st0 m cu m1 back _ Hclk Hcr. subst back.
  destruct (apply_cr_decode (prescale cu) st) as [Hpol Hen].
  assert (u32 (mmio hw (trace m1 ++ [EvClkPrepareEnable
                                       (s32 (clk_enable_result hw (trace m1)))])
                    MX3_PWMCR)
          = apply_cr (prescale cu) st) as Hread by (apply Hcr; reflexivity).
  destruct (get_state_runs hw st0 m1 Hclk)
    as (cr & pr & sar & ev & Hr & -> & _).
  apply runs_result in Hr as [Hr _]. rewrite Hr, Hread.
  destruct (get_state_trace hw st0 m1 Hclk) as (pr' & sar' & ->).
  cbv zeta. rewrite Hread, Hpol, Hen.
  unfold get_state_result. cbn [snd polarity enabled]. rewrite Hpol, Hen.
  split; [|split; [reflexivity|]].
  - destruct (polarity st); reflexivity.
  - intros Hin.
    destruct (polarity st), (enabled st); cbn in Hin;
      repeat (destruct Hin as [Hin|Hin]; [discriminate Hin|]); exact Hin.
Qed.

Lemma apply_get_state_polarity_enabled_witness :
  polarity (round_trip (regfile_hw LP64 66000000) inversed_off)
  = PWM_POLARITY_INVERSED
  /\ enabled (round_trip (regfile_hw LP64 66000000) inversed_off) = false.
Proof.
  pose proof (apply_get_state_polarity_enabled (regfile_hw LP64 66000000)
                stopped_pwm inversed_off stopped_pwm.(state) fresh_machine)
    as H. cbv zeta in H.
  destruct H as (Hpol & Hen & _).
  - reflexivity.
  - vm_compute. discriminate.
  - apply (regfile_holds LP64 66000000).
  - split; [exact Hpol | exact Hen].
Defined.

(** X8: a disconnected output is not an error.  When the polarity field
    of the control register is neither normal nor inverted, a get_state
    that got its clocks warns, leaves the caller's polarity as it was and
    still returns 0 with the rest of the state read from the device. *)
Theorem get_state_output_disconnected :
  forall (hw : platform) (st0 : pwm_state) (m : machine),
    let r := s32 (clk_enable_result hw (trace m)) in
    let cr := u32 (mmio hw (trace m ++ [EvClkPrepareEnable r]) MX3_PWMCR) in
    0 <= r ->
    FIELD_GET MX3_PWMCR_POUTC cr <> MX3_PWMCR_POUTC_NORMAL ->
    FIELD_GET MX3_PWMCR_POUTC cr <> MX3_PWMCR_POUTC_INVERTED ->
    fst (fst (pwm_imx27_get_state hw st0 m)) = 0
    /\ polarity (snd (fst (pwm_imx27_get_state hw st0 m))) = polarity st0
    /\ enabled (snd (fst (pwm_imx27_get_state hw st0 m))) = en_set cr
    /\ In (EvDevWarn "can't set polarity, output disconnected")
          (events_of (pwm_imx27_get_state hw st0) m).
Proof.
  intros hw st0 m r cr Hclk Hn Hi.
  destruct (get_state_runs hw st0 m Hclk)
    as (cr' & pr & sar & ev & Hr & Hcr & _).
  fold r in Hcr. fold cr in Hcr. subst cr'.
  apply runs_result in Hr as [Hr _]. rewrite Hr.
  destruct (get_state_trace hw st0 m Hclk) as (pr' & sar' & ->).
  fold r. fold cr.
  apply Z.eqb_neq in Hn, Hi.
  unfold get_state_result. cbn [fst snd polarity enabled].
  rewrite Hn, Hi. repeat split.
  cbn. right. right. left. reflexivity.
Qed.

Lemma get_state_output_disconnected_witness :
  polarity (snd (fst (pwm_imx27_get_state disconnected_hw inversed_off
                        fresh_machine))) = PWM_POLARITY_INVERSED
  /\ In (EvDevWarn "can't set polarity, output disconnected")
        (events_of (pwm_imx27_get_state disconnected_hw inversed_off)
                   fresh_machine).
Proof.
  destruct (get_state_output_disconnected disconnected_hw inversed_off
              fresh_machine) as (_ & Hpol & _ & Hwarn).
  - vm_compute. discriminate.
  - vm_compute. discriminate.
  - vm_compute. discriminate.
  - split; [exact Hpol | exact Hwarn].
Defined.

(** ** The prescaler field *)

Lemma prescaler_get_range cr : 1 <= MX3_PWMCR_PRESCALER_GET cr <= 4096.
Proof.
  unfold MX3_PWMCR_PRESCALER_GET, FIELD_GET.
  change (__bf_shf MX3_PWMCR_PRESCALER) with 4.
  rewrite Z.shiftr_land.
  change (Z.shiftr MX3_PWMCR_PRESCALER 4) with (Z.ones 12).
  rewrite Z.land_ones by lia.
  pose proof (Z.mod_pos_bound (Z.shiftr cr 4) (2 ^ 12) ltac:(lia)). lia.
Qed.

Lemma prescaler_set_get cr :
  MX3_PWMCR_PRESCALER_SET (MX3_PWMCR_PRESCALER_GET cr)
  = Z.land cr MX3_PWMCR_PRESCALER.
Proof.
  unfold MX3_PWMCR_PRESCALER_SET, MX3_PWMCR_PRESCALER_GET, FIELD_PREP,
    FIELD_GET.
  change (__bf_shf MX3_PWMCR_PRESCALER) with 4.
  replace (Z.shiftr (Z.land cr MX3_PWMCR_PRESCALER) 4 + 1 - 1)
    with (Z.shiftr (Z.land cr MX3_PWMCR_PRESCALER) 4) by lia.
  change MX3_PWMCR_PRESCALER with (Z.shiftl (Z.ones 12) 4).
  apply Z.bits_inj'. intros n Hn.
  rewrite !Z.land_spec.
  destruct (Z.ltb_spec n 4) as [Hlow|Hhigh].
  - rewrite !(Z.shiftl_spec_low _ _ _ Hlow). now rewrite !andb_false_r.
  - rewrite !Z.shiftl_spec, Z.shiftr_spec, Z.land_spec, !Z.shiftl_spec
      by lia.
    replace (n - 4 + 4) with n by lia.
    destruct (Z.testbit cr n), (Z.testbit (Z.ones 12) (n - 4)); reflexivity.
Qed.

(** X9: the prescaler field round trip.  Decoding an encoded prescaler
    gives it back for 1 to 4096, and in general the prescaler reduced into
    that range modulo 4096, so that 4097 decodes as 1.  Every control word
    decodes to a prescaler between 1 and 4096, and encoding that again
    gives the prescaler bits of the word. *)
Theorem prescaler_field_round_trip :
  (forall x, MX3_PWMCR_PRESCALER_GET (MX3_PWMCR_PRESCALER_SET x)
             = (x - 1) mod 4096 + 1)
  /\ (forall x, 1 <= x <= 4096 ->
                MX3_PWMCR_PRESCALER_GET (MX3_PWMCR_PRESCALER_SET x) = x)
  /\ (forall cr,
         1 <= MX3_PWMCR_PRESCALER_GET cr <= 4096
         /\ MX3_PWMCR_PRESCALER_SET (MX3_PWMCR_PRESCALER_GET cr)
            = Z.land cr MX3_PWMCR_PRESCALER).
Proof.
  assert (forall x, MX3_PWMCR_PRESCALER_GET (MX3_PWMCR_PRESCALER_SET x)
                    = (x - 1) mod 4096 + 1) as Hgen.
  { intros x. unfold MX3_PWMCR_PRESCALER_GET. now rewrite prescaler_get_set. }
  split; [exact Hgen|]. split.
  - intros x Hx. rewrite Hgen, Z.mod_small; lia.
  - intros cr. split; [apply prescaler_get_range|].
    apply prescaler_set_get.
Qed.

Lemma prescaler_field_round_trip_witness :
  MX3_PWMCR_PRESCALER_GET (MX3_PWMCR_PRESCALER_SET 4096) = 4096
  /\ MX3_PWMCR_PRESCALER_SET (MX3_PWMCR_PRESCALER_GET 63045649) = 16.
Proof.
  destruct prescaler_field_round_trip as (_ & Hrt & Hdec).
  split.
  - apply Hrt. lia.
  - exact (proj2 (Hdec 63045649)).
Defined.

(** ** The rate conversion, further *)

(** X10: the prescaler is the least one that brings the period in clock
    cycles below 2^16: with it the scaled period fits 16 bits, and with
    any smaller prescaler it does not. *)
Theorem prescale_minimal :
  forall (hw : platform) (st : pwm_state),
    let cu := apply_counter_units hw st in
    raw_period_cycles hw st / prescale cu < 65536
    /\ forall p, 1 <= p < prescale cu ->
                 65536 <= raw_period_cycles hw st / p.
Proof.
  intros hw st cu. split; [apply scaled_period_fits|].
  intros p Hp. unfold cu in Hp. rewrite prescale_eq in Hp.
  pose proof (raw_period_cycles_range hw st) as Hr.
  apply Z.div_le_lower_bound; [lia|].
  pose proof (Z.mul_div_le (raw_period_cycles hw st) 65536 ltac:(lia)).
  nia.
Qed.

Lemma prescale_minimal_witness :
  65536 <= raw_period_cycles running_hw full_duty / 1.
Proof.
  apply (prescale_minimal running_hw full_duty). vm_compute.
  split; [discriminate | reflexivity].
Defined.

(** X11: the duty value follows the request.  A duty cycle of 0 gives 0
    cycles, whatever the clock and the period; and for one period and
    clock, a longer duty cycle never gives fewer cycles, as long as
    [clkrate * duty_cycle] stays below 2^64 and the cycles fit an
    [unsigned long]. *)
Theorem duty_cycles_monotone :
  forall (hw : platform) (p d1 d2 : Z) (pol : pwm_polarity) (en : bool),
    let cycles d :=
      duty_cycles (apply_counter_units hw (mk_pwm_state p d pol en)) in
    cycles 0 = 0
    /\ (0 <= d1 <= d2 -> d2 < 2 ^ 64 ->
        apply_clkrate hw * d2 < 2 ^ 64 ->
        apply_clkrate hw * d2 / NSEC_PER_SEC
        < 2 ^ BITS_PER_LONG (plat_abi hw) ->
        cycles d1 <= cycles d2).
Proof.
  intros hw p d1 d2 pol en cycles. subst cycles. cbv beta.
  assert (forall d, prescale (apply_counter_units hw (mk_pwm_state p d pol en))
                    = prescale (apply_counter_units hw
                                  (mk_pwm_state p 0 pol en))) as Hpre
      by reflexivity.
  pose proof (prescale_pos hw (mk_pwm_state p 0 pol en)) as Hp.
  assert (0 <= apply_clkrate hw) as Hclk by apply ulong_range.
  assert (forall d, 0 <= d -> d < 2 ^ 64 ->
                    apply_clkrate hw * d < 2 ^ 64 ->
                    apply_clkrate hw * d / NSEC_PER_SEC
                    < 2 ^ BITS_PER_LONG (plat_abi hw) ->
                    raw_duty_cycles hw (mk_pwm_state p d pol en)
                    = apply_clkrate hw * d / NSEC_PER_SEC) as Hraw.
  { intros d Hd Hd64 Hov Hfit. unfold raw_duty_cycles, do_div.
    cbn [duty_cycle]. change (u32 NSEC_PER_SEC) with NSEC_PER_SEC.
    rewrite (u64_small d) by lia.
    rewrite !(u64_small (apply_clkrate hw * d)) by nia.
    apply Z.mod_small.
    split; [apply Z.div_pos; unfold NSEC_PER_SEC; nia | exact Hfit]. }
  split.
  - rewrite duty_cycles_eq.
    replace (raw_duty_cycles hw (mk_pwm_state p 0 pol en)) with 0;
      [reflexivity|].
    unfold raw_duty_cycles, do_div. cbn [duty_cycle].
    change (u64 0) with 0. rewrite Z.mul_0_r. change (u64 0) with 0.
    rewrite Z.div_0_l by (vm_compute; discriminate).
    symmetry. apply Z.mod_0_l. destruct (plat_abi hw); vm_compute; discriminate.
  - intros Hd Hd64 Hov Hfit.
    rewrite !duty_cycles_eq, (Hpre d1), (Hpre d2).
    apply Z.div_le_mono; [lia|].
    assert (apply_clkrate hw * d1 <= apply_clkrate hw * d2) as Hle by nia.
    rewrite (Hraw d2) by lia.
    rewrite (Hraw d1); try lia.
    + apply Z.div_le_mono; [unfold NSEC_PER_SEC; lia | exact Hle].
    + eapply Z.le_lt_trans; [|exact Hfit].
      apply Z.div_le_mono; [unfold NSEC_PER_SEC; lia | exact Hle].
Qed.

Lemma duty_cycles_monotone_witness :
  duty_cycles (apply_counter_units running_hw
                 (mk_pwm_state 1000000 250000 PWM_POLARITY_NORMAL true))
  <= duty_cycles (apply_counter_units running_hw
                    (mk_pwm_state 1000000 500000 PWM_POLARITY_NORMAL true)).
Proof.
  apply (duty_cycles_monotone running_hw 1000000 250000 500000
           PWM_POLARITY_NORMAL true); vm_compute; try split; congruence.
Defined.

(** ** The period that get_state reports *)

(** X12: bounds of the reported period.  With a clock rate that is not 0
    (as get_state sees it, in 32 bits), a get_state that got its clocks
    reports a period of at least 1 ns and at most the time of 65536 clock
    cycles at prescaler 4096, rounded up: a period register of 0xffff
    counts as 0xfffe. *)
Theorem get_state_period_bounds :
  forall (hw : platform) (st0 : pwm_state) (m : machine),
    let clk := u32 (clk_get_rate hw) in
    let p := period (snd (fst (pwm_imx27_get_state hw st0 m))) in
    0 <= s32 (clk_enable_result hw (trace m)) ->
    0 < clk ->
    1 <= p /\ (p - 1) * clk < NSEC_PER_SEC * 65536 * 4096.
Proof.
  intros hw st0 m clk p Hclk Hpos. subst p.
  destruct (get_state_runs hw st0 m Hclk)
    as (cr & pr & sar & ev & Hr & _ & _ & (t & _ & Hpr) & _).
  apply runs_result in Hr as [Hr _]. rewrite Hr.
  unfold get_state_result. cbn [snd period]. fold clk.
  pose proof (u32_range (clk_get_rate hw)) as Hcr. fold clk in Hcr.
  pose proof (u32_range (mmio hw (trace m ++ t) MX3_PWMPR)) as Hprr.
  rewrite <- Hpr in Hprr.
  pose proof (prescaler_get_range cr) as Hpre.
  rewrite (u32_small (MX3_PWMCR_PRESCALER_GET cr)) by lia.
  set (x := if pr >=? MX3_PWMPR_MAX then MX3_PWMPR_MAX else pr).
  assert (0 <= x <= 65534) as Hx.
  { subst x. unfold MX3_PWMPR_MAX.
    destruct (pr >=? 65534) eqn:E; [lia|].
    rewrite Z.geb_leb in E. apply Z.leb_gt in E. lia. }
  rewrite (u32_small (x + 2)) by lia.
  assert (NSEC_PER_SEC * (x + 2) * MX3_PWMCR_PRESCALER_GET cr
          <= NSEC_PER_SEC * 65536 * 4096) as Hmax
      by (unfold NSEC_PER_SEC; nia).
  pose proof (cycles_to_ns_ceiling (MX3_PWMCR_PRESCALER_GET cr) clk (x + 2)
                ltac:(lia) ltac:(lia) ltac:(lia)
                ltac:(unfold NSEC_PER_SEC in *; lia)) as Hceil.
  cbv zeta in Hceil. unfold NSEC_PER_SEC in *. nia.
Qed.

Lemma get_state_period_bounds_witness :
  1 <= period (snd (fst (pwm_imx27_get_state disconnected_hw half_duty
                           fresh_machine)))
  /\ (period (snd (fst (pwm_imx27_get_state disconnected_hw half_duty
                          fresh_machine))) - 1) * 66000000
     < NSEC_PER_SEC * 65536 * 4096.
Proof.
  apply (get_state_period_bounds disconnected_hw half_duty fresh_machine);
    vm_compute; congruence.
Defined.

(** ** The threshold of the best-effort branch *)

(** X13: on a 64-bit kernel with a clock rate below 2^32 Hz, [period_us]
    is below 2, which sends the workaround into its best-effort branch,
    exactly when the running period, [(PWMPR + 2) * prescaler] clock
    cycles with PWMPR capped at 0xfffe, is at most 1000 ns. *)
Theorem apply_period_us_threshold :
  forall (hw : platform) (val cr : Z),
    plat_abi hw = LP64 ->
    0 < clk_get_rate hw < 2 ^ 32 ->
    0 <= val ->
    (apply_period_us hw val cr < 2
     <-> NSEC_PER_SEC * (Z.min val MX3_PWMPR_MAX + 2)
         * MX3_PWMCR_PRESCALER_GET cr
         <= 1000 * clk_get_rate hw).
Proof.
  intros hw val cr Habi Hclk Hval.
  unfold apply_period_us, apply_clkrate, ulong. rewrite Habi.
  cbn [BITS_PER_LONG]. fold (u64 (clk_get_rate hw)).
  rewrite (u64_small (clk_get_rate hw)) by lia.
  set (clk := clk_get_rate hw) in *.
  replace (if val >=? MX3_PWMPR_MAX then MX3_PWMPR_MAX else val)
    with (Z.min val MX3_PWMPR_MAX)
    by (unfold MX3_PWMPR_MAX; destruct (val >=? 65534) eqn:E;
        [apply Z.geb_le in E | rewrite Z.geb_leb in E; apply Z.leb_gt in E];
        lia).
  set (cyc := Z.min val MX3_PWMPR_MAX + 2).
  assert (2 <= cyc <= 65536) as Hcyc by (subst cyc; unfold MX3_PWMPR_MAX; lia).
  pose proof (prescaler_get_range cr) as Hpre.
  set (pg := MX3_PWMCR_PRESCALER_GET cr) in *.
  unfold NSEC_PER_SEC.
  rewrite (u64_small cyc) by lia.
  set (x := 1000000000 * cyc * pg).
  assert (0 < x <= 1000000000 * 65536 * 4096) as Hx by (subst x; nia).
  fold (u64 (u64 x)). rewrite !(u64_small x) by lia.
  unfold DIV_ROUND_UP_ULL, DIV_ROUND_DOWN_ULL, do_div.
  rewrite !(u64_small x) by lia.
  rewrite !(u64_small (x + clk - 1)) by lia.
  rewrite (u32_small clk) by lia.
  set (ns := (x + clk - 1) / clk).
  assert (0 <= ns <= x) as Hns.
  { subst ns. split; [apply Z.div_pos; lia|].
    apply Z.div_le_upper_bound; nia. }
  fold (u64 ns). rewrite !(u64_small ns) by lia.
  rewrite !(u64_small (ns + 1000 - 1)) by lia.
  change (u32 1000) with 1000.
  set (us := (ns + 1000 - 1) / 1000).
  assert (0 <= us <= ns + 999) as Hus.
  { subst us. split; [apply Z.div_pos; lia|].
    apply Z.div_le_upper_bound; lia. }
  fold (u64 us). rewrite (u64_small us) by lia.
  pose proof (Z.div_mod (x + clk - 1) clk ltac:(lia)) as D1.
  pose proof (Z.mod_pos_bound (x + clk - 1) clk ltac:(lia)) as M1.
  fold ns in D1.
  pose proof (Z.div_mod (ns + 1000 - 1) 1000 ltac:(lia)) as D2.
  pose proof (Z.mod_pos_bound (ns + 1000 - 1) 1000 ltac:(lia)) as M2.
  fold us in D2.
  split; intros H; nia.
Qed.

Lemma apply_period_us_threshold_witness :
  apply_period_us running_hw 64 1 < 2.
Proof.
  apply (apply_period_us_threshold running_hw 64 1);
    vm_compute; try split; congruence.
Defined.

(** ** A request that is valid reads back valid *)

Section ReadBackValid.

Variable hw : platform.

(** [cycles_to_ns] grows with the number of cycles. *)
Lemma cycles_to_ns_monotone prescaler pwm_clk c1 c2 :
  0 < pwm_clk < 2 ^ 32 -> 1 <= prescaler -> 0 <= c1 <= c2 ->
  NSEC_PER_SEC * c2 * prescaler + pwm_clk <= 2 ^ 64 ->
  cycles_to_ns prescaler pwm_clk c1 <= cycles_to_ns prescaler pwm_clk c2.
Proof.
  intros Hclk Hp Hc Hov.
  pose proof (cycles_to_ns_ceiling prescaler pwm_clk c1 Hclk ltac:(lia) Hp
                ltac:(unfold NSEC_PER_SEC in *; nia)) as H1.
  pose proof (cycles_to_ns_ceiling prescaler pwm_clk c2 Hclk ltac:(lia) Hp
                Hov) as H2.
  cbv zeta in H1, H2. unfold NSEC_PER_SEC in *. nia.
Qed.

(** X14: for a clock rate between 1 Hz and 2^32 - 1 Hz and a request with
    [0 <= duty_cycle <= period] and a period of less than 2^28 clock
    cycles, the state that get_state reads back after a successful apply
    (on a device that shows the registers as apply wrote them) has a duty
    cycle that is at most its period, although the period register holds
    the period minus 2 and the sample register the unreduced duty value. *)
Theorem apply_get_state_valid :
  forall (pwm : pwm_device) (st st0 : pwm_state) (m : machine),
    let clk := clk_get_rate hw in
    let cu := apply_counter_units hw st in
    let m1 := snd (pwm_imx27_apply hw pwm st m) in
    let back := snd (fst (pwm_imx27_get_state hw st0 m1)) in
    0 < clk < 2 ^ 32 ->
    0 <= duty_cycle st <= period st ->
    clk * period st < 2 ^ 28 * NSEC_PER_SEC ->
    fst (pwm_imx27_apply hw pwm st m) = 0 ->
    0 <= s32 (clk_enable_result hw (trace m1)) ->
    holds_after hw (trace m1) MX3_PWMCR (apply_cr (prescale cu) st) ->
    holds_after hw (trace m1) MX3_PWMPR (u32 (period_cycles cu)) ->
    (enabled st = true ->
     holds_after hw (trace m1) MX3_PWMSAR (u32 (duty_cycles cu))) ->
    0 <= duty_cycle back <= period back.
Proof.
  intros pwm st st0 m clk cu m1 back Hclk HD HPlt Hok Hgs Hcr Hpr Hsar.
  pose proof (get_state_after_apply hw pwm st st0 m Hok Hgs Hcr Hpr Hsar) as Hb.
  fold cu m1 in Hb.
  assert (back = get_state_result hw st0 (u32 (duty_cycles cu))
                   (apply_cr (prescale cu) st) (u32 (period_cycles cu))
                   (u32 (duty_cycles cu))) as Hback
      by (subst back; now rewrite Hb).
  clearbody back. clear Hb Hcr Hpr Hsar Hgs Hok. subst back.
  unfold NSEC_PER_SEC in *.
  assert (apply_clkrate hw = clk) as Hrate
      by (apply ulong_small; fold clk; lia).
  assert (period st < 2 ^ 58) as HP58 by nia.
  set (rawP := clk * period st / 1000000000).
  set (rawD := clk * duty_cycle st / 1000000000).
  assert (0 <= rawP < 2 ^ 28) as HrawP.
  { subst rawP. split; [apply Z.div_pos; nia|].
    apply Z.div_lt_upper_bound; lia. }
  assert (0 <= rawD <= rawP) as HrawD.
  { subst rawD rawP. split; [apply Z.div_pos; nia|].
    apply Z.div_le_mono; nia. }
  assert (raw_period_cycles hw st = rawP) as HeqP.
  { unfold raw_period_cycles, do_div, NSEC_PER_SEC. rewrite Hrate.
    change (u32 1000000000) with 1000000000.
    rewrite (u64_small (period st)) by lia.
    rewrite !(u64_small (clk * period st)) by nia.
    fold rawP. apply ulong_small. lia. }
  assert (raw_duty_cycles hw st = rawD) as HeqD.
  { unfold raw_duty_cycles, do_div, NSEC_PER_SEC. rewrite Hrate.
    change (u32 1000000000) with 1000000000.
    rewrite (u64_small (duty_cycle st)) by lia.
    rewrite !(u64_small (clk * duty_cycle st)) by nia.
    fold rawD. apply ulong_small. lia. }
  assert (prescale cu = rawP / 65536 + 1) as Hpre
      by (unfold cu; now rewrite prescale_eq, HeqP).
  assert (1 <= prescale cu <= 4096) as Hprange.
  { rewrite Hpre. assert (0 <= rawP / 65536 < 4096); [|lia].
    split; [apply Z.div_pos; lia | apply Z.div_lt_upper_bound; lia]. }
  pose proof (period_cycles_range hw st) as Hpc. fold cu in Hpc.
  pose proof (scaled_period_le hw st) as Hsc. fold cu in Hsc.
  rewrite HeqP in Hsc.
  assert (duty_cycles cu = rawD / prescale cu) as Hdc
      by (unfold cu; now rewrite duty_cycles_eq, HeqD).
  assert (0 <= duty_cycles cu <= period_cycles cu + 2) as Hdcr.
  { rewrite Hdc. split; [apply Z.div_pos; lia|].
    pose proof (Z.div_le_mono rawD rawP (prescale cu) ltac:(lia) ltac:(lia)).
    lia. }
  assert (u32 (MX3_PWMCR_PRESCALER_GET (apply_cr (prescale cu) st))
          = prescale cu) as Hget.
  { rewrite apply_cr_prescaler, Z.mod_small by lia.
    replace (prescale cu - 1 + 1) with (prescale cu) by lia.
    apply u32_small. lia. }
  unfold get_state_result. cbn [period duty_cycle]. rewrite Hget.
  fold clk. rewrite (u32_small clk) by lia.
  rewrite (u32_small (period_cycles cu)) by lia.
  rewrite (u32_small (duty_cycles cu)) by lia.
  assert ((period_cycles cu >=? MX3_PWMPR_MAX) = false) as ->.
  { unfold MX3_PWMPR_MAX. rewrite Z.geb_leb. apply Z.leb_gt. lia. }
  rewrite (u32_small (period_cycles cu + 2)) by lia.
  replace (if en_set (apply_cr (prescale cu) st)
           then duty_cycles cu else duty_cycles cu)
    with (duty_cycles cu) by (now destruct (en_set _)).
  split.
  - pose proof (cycles_to_ns_ceiling (prescale cu) clk (duty_cycles cu)
                  Hclk ltac:(lia) ltac:(lia)
                  ltac:(unfold NSEC_PER_SEC; nia)) as HceilD.
    cbv zeta in HceilD. unfold NSEC_PER_SEC in *. nia.
  - apply cycles_to_ns_monotone; try lia. unfold NSEC_PER_SEC. nia.
Qed.

End ReadBackValid.

Lemma apply_get_state_valid_witness :
  0 <= duty_cycle (round_trip (regfile_hw LP64 66000000) full_duty)
    <= period (round_trip (regfile_hw LP64 66000000) full_duty).
Proof.
  apply (apply_get_state_valid (regfile_hw LP64 66000000) stopped_pwm
           full_duty stopped_pwm.(state) fresh_machine).
  - vm_compute. split; reflexivity.
  - vm_compute. split; discriminate.
  - reflexivity.
  - reflexivity.
  - vm_compute. discriminate.
  - apply regfile_holds.
  - apply regfile_holds.
  - intros _. apply regfile_holds.
Defined.

(** ** The probe *)

(** The probe with its three resources in hand: the events it adds, its
    result and the chip data. *)
Lemma probe_runs hw res m :
  devm_pwmchip_alloc res = PtrValid ->
  devm_clk_bulk_get res = 0 ->
  devm_platform_ioremap_resource res = PtrValid ->
  let r := s32 (clk_enable_result hw (trace m)) in
  let cr := u32 (mmio hw (trace m ++ [EvClkPrepareEnable 0]) MX3_PWMCR) in
  runs (pwm_imx27_probe hw res) m
    (if r =? 0 then devm_pwmchip_add res else r)
    (if r =? 0
     then [EvClkPrepareEnable 0; EvReadl MX3_PWMCR cr]
          ++ (if en_set cr then [] else [EvClkDisableUnprepare])
     else [EvClkPrepareEnable r])
    (imx m).
Proof.
  intros Ha Hc Hi r cr.
  unfold runs, pwm_imx27_probe. rewrite Ha, Hc, Hi. cbn [Z.eqb negb].
  unfold bind, clk_bulk_prepare_enable. cbn [fst snd]. fold r.
  destruct (r =? 0) eqn:E; cbn [negb]; [|reflexivity].
  apply Z.eqb_eq in E. rewrite E.
  unfold readl. cbn [trace imx fst snd]. fold cr.
  unfold en_set. destruct (Z.land cr MX3_PWMCR_EN =? 0); cbn [negb when].
  - unfold clk_bulk_disable_unprepare, emit, ret. cbn [trace imx fst snd].
    now rewrite <- !app_assoc.
  - unfold ret. cbn [trace imx fst snd]. now rewrite <- !app_assoc.
Qed.

(** X15: the probe touches clocks and registers exactly when the chip
    allocation, the clock lookup and the register mapping all succeeded;
    if one of them failed it leaves the machine as it found it. *)
Theorem probe_touches_hardware_iff_resources :
  forall (hw : platform) (res : probe_resources) (m : machine),
    (events_of (pwm_imx27_probe hw res) m = []
     <-> (devm_pwmchip_alloc res <> PtrValid
          \/ devm_clk_bulk_get res <> 0
          \/ devm_platform_ioremap_resource res <> PtrValid))
    /\ (events_of (pwm_imx27_probe hw res) m = []
        -> snd (pwm_imx27_probe hw res m) = m).
Proof.
  intros hw res m.
  assert (forall a : Z, events_of (ret a) m = []) as Hret.
  { intros a. unfold events_of, ret. cbn [snd]. apply skipn_all. }
  destruct (devm_pwmchip_alloc res) as [|e] eqn:Ha.
  2:{ unfold pwm_imx27_probe. rewrite Ha. split.
      - split; [intros _; left; discriminate | intros _; apply Hret].
      - reflexivity. }
  destruct (Z.eq_dec (devm_clk_bulk_get res) 0) as [Hc|Hc].
  2:{ unfold pwm_imx27_probe, dev_err_probe. rewrite Ha.
      apply Z.eqb_neq in Hc as Hc'. rewrite Hc'. cbn [negb]. split.
      - split; [intros _; right; left; exact Hc | intros _; apply Hret].
      - reflexivity. }
  destruct (devm_platform_ioremap_resource res) as [|e] eqn:Hi.
  2:{ unfold pwm_imx27_probe. rewrite Ha, Hc, Hi. cbn [Z.eqb negb]. split.
      - split; [intros _; right; right; discriminate | intros _; apply Hret].
      - reflexivity. }
  pose proof (probe_runs hw res m Ha Hc Hi) as Hr. cbv zeta in Hr.
  rewrite (runs_events _ _ _ _ _ Hr).
  assert ((if s32 (clk_enable_result hw (trace m)) =? 0
           then [EvClkPrepareEnable 0;
                 EvReadl MX3_PWMCR
                   (u32 (mmio hw (trace m ++ [EvClkPrepareEnable 0])
                           MX3_PWMCR))]
                ++ (if en_set (u32 (mmio hw (trace m ++ [EvClkPrepareEnable 0])
                                      MX3_PWMCR))
                    then [] else [EvClkDisableUnprepare])
           else [EvClkPrepareEnable (s32 (clk_enable_result hw (trace m)))])
          <> []) as Hne by (destruct (_ =? 0); discriminate).
  split; [split|]; intros H.
  - contradiction.
  - destruct H as [H|[H|H]]; congruence.
  - contradiction.
Qed.

Lemma probe_touches_hardware_iff_resources_witness :
  snd (pwm_imx27_probe stopped_hw no_clocks_found fresh_machine)
  = fresh_machine.
Proof.
  apply (proj2 (probe_touches_hardware_iff_resources stopped_hw
                  no_clocks_found fresh_machine)).
  apply (proj1 (probe_touches_hardware_iff_resources stopped_hw
                  no_clocks_found fresh_machine)).
  right. left. vm_compute. discriminate.
Defined.

(** X16: with its resources in hand the probe writes no register and
    leaves the chip data alone.  If the clocks cannot be enabled it returns
    that error after the clock request alone.  Otherwise it reads the
    control register, once, and nothing else, keeps its clock reference
    exactly when the enable bit is set, and returns what the registration
    of the chip returned: a registration that fails on a running PWM leaves
    the clocks on. *)
Theorem probe_keeps_clocks_iff_running :
  forall (hw : platform) (res : probe_resources) (m : machine),
    let r := s32 (clk_enable_result hw (trace m)) in
    let cr := u32 (mmio hw (trace m ++ [EvClkPrepareEnable 0]) MX3_PWMCR) in
    let ev := events_of (pwm_imx27_probe hw res) m in
    devm_pwmchip_alloc res = PtrValid ->
    devm_clk_bulk_get res = 0 ->
    devm_platform_ioremap_resource res = PtrValid ->
    reg_writes ev = []
    /\ imx (snd (pwm_imx27_probe hw res m)) = imx m
    /\ (r <> 0 ->
        fst (pwm_imx27_probe hw res m) = r
        /\ ev = [EvClkPrepareEnable r])
    /\ (r = 0 ->
        fst (pwm_imx27_probe hw res m) = devm_pwmchip_add res
        /\ reg_accesses ev = [MX3_PWMCR]
        /\ clk_balance ev = b2z (en_set cr)).
Proof.
  intros hw res m r cr ev Ha Hc Hi. subst ev.
  pose proof (probe_runs hw res m Ha Hc Hi) as Hr. cbv zeta in Hr.
  fold r cr in Hr.
  rewrite (runs_events _ _ _ _ _ Hr).
  apply runs_result in Hr as [Hfst Hsnd]. rewrite Hfst, Hsnd.
  destruct (r =? 0) eqn:E.
  - apply Z.eqb_eq in E.
    split; [destruct (en_set cr); reflexivity|].
    split; [reflexivity|]. split; [congruence|]. intros _.
    split; [reflexivity|].
    split; destruct (en_set cr); reflexivity.
  - apply Z.eqb_neq in E.
    split; [reflexivity|]. split; [reflexivity|].
    split; [intros _; split; reflexivity | congruence].
Qed.

Lemma probe_keeps_clocks_iff_running_witness :
  clk_balance (events_of (pwm_imx27_probe disconnected_hw all_resources)
                         fresh_machine) = 1
  /\ clk_balance (events_of (pwm_imx27_probe stopped_hw all_resources)
                            fresh_machine) = 0.
Proof.
  split.
  - apply (probe_keeps_clocks_iff_running disconnected_hw all_resources
             fresh_machine); reflexivity.
  - apply (probe_keeps_clocks_iff_running stopped_hw all_resources
             fresh_machine); reflexivity.
Defined.

(** X17: the clock reference follows the enable state from the probe on.
    When the probe succeeded in enabling the clocks and the state the PWM
    core holds agrees with the enable bit the probe read, the probe and a
    successful apply after it leave the driver with one clock reference if
    the request enables the PWM and with none if it disables it. *)
Theorem probe_then_apply_clk_balance :
  forall (hw : platform) (res : probe_resources) (pwm : pwm_device)
         (st : pwm_state) (m : machine),
    let cr := u32 (mmio hw (trace m ++ [EvClkPrepareEnable 0]) MX3_PWMCR) in
    let m1 := snd (pwm_imx27_probe hw res m) in
    devm_pwmchip_alloc res = PtrValid ->
    devm_clk_bulk_get res = 0 ->
    devm_platform_ioremap_resource res = PtrValid ->
    s32 (clk_enable_result hw (trace m)) = 0 ->
    enabled (state pwm) = en_set cr ->
    fst (pwm_imx27_apply hw pwm st m1) = 0 ->
    clk_balance (events_of (pwm_imx27_probe hw res) m
                 ++ events_of (pwm_imx27_apply hw pwm st) m1)
    = b2z (enabled st).
Proof.
  intros hw res pwm st m cr m1 Ha Hc Hi Hclk Hen Hok.
  pose proof (probe_runs hw res m Ha Hc Hi) as Hr. cbv zeta in Hr.
  fold cr in Hr. rewrite Hclk in Hr. cbn [Z.eqb] in Hr.
  rewrite (runs_events _ _ _ _ _ Hr).
  destruct (apply_runs hw pwm st m1) as (r & ev & chip' & Hr2 & Hrun).
  rewrite (runs_events _ _ _ _ _ Hr2).
  apply runs_result in Hr2 as [Hfst _]. rewrite Hfst in Hok. subst r.
  rewrite clk_balance_app, (apply_run_clk_balance _ _ _ _ _ _ _ Hrun).
  cbn [Z.eqb]. rewrite Hen.
  destruct (en_set cr), (enabled st); reflexivity.
Qed.

Lemma probe_then_apply_clk_balance_witness :
  clk_balance
    (events_of (pwm_imx27_probe stuck_reset_hw all_resources) fresh_machine
     ++ events_of (pwm_imx27_apply stuck_reset_hw stopped_pwm half_duty)
          (snd (pwm_imx27_probe stuck_reset_hw all_resources fresh_machine)))
  = 1.
Proof.
  apply (probe_then_apply_clk_balance stuck_reset_hw all_resources
           stopped_pwm half_duty fresh_machine); reflexivity.
Defined.

(** ** The workaround and the FIFO *)

(** What the number of guard writes tells: one copy is written only after
    a FIFO level below 2 and a read of the counter; two copies are written
    without looking at the counter. *)
Lemma erratum_guard_fifo hw cu period_us c cr val old guard :
  erratum_guard hw cu period_us c cr val old guard ->
  (List.length (writes_to MX3_PWMSAR guard) <= 2)%nat
  /\ (List.length (writes_to MX3_PWMSAR guard) = 1%nat ->
      val < MX3_PWMSR_FIFOAV_2WORDS
      /\ List.length (reads_of MX3_PWMCNR guard) = 1%nat)
  /\ (List.length (writes_to MX3_PWMSAR guard) = 2%nat ->
      period_us < 2 /\ reads_of MX3_PWMCNR guard = []).
Proof.
  intros H. inversion H; subst; cbn; repeat split;
    solve [lia | discriminate | assumption | reflexivity].
Qed.

(** X18: the sample-register writes of a successful apply and the FIFO.
    Within the section that runs with interrupts off apply reads the FIFO
    level and then writes the sample register once, twice or three times.
    It writes twice only after a FIFO level below 2 and one read of the
    counter, so that both words fit the FIFO of four; it writes three
    times without reading the counter, whatever the FIFO level. *)
Theorem apply_guard_fifo_room :
  forall (hw : platform) (pwm : pwm_device) (st : pwm_state) (m : machine),
    fst (pwm_imx27_apply hw pwm st m) = 0 ->
    exists pre sr crit post,
      events_of (pwm_imx27_apply hw pwm st) m
      = pre ++ [EvIrqSave; EvReadl MX3_PWMSR sr] ++ crit
        ++ [EvIrqRestore] ++ post
      /\ forallb (fun e => negb (is_irq e)) pre = true
      /\ forallb (fun e => negb (is_irq e)) crit = true
      /\ (1 <= List.length (writes_to MX3_PWMSAR crit) <= 3)%nat
      /\ (List.length (writes_to MX3_PWMSAR crit) = 2%nat ->
          fifoav sr + 2 < MX3_PWMSR_FIFOAV_4WORDS
          /\ List.length (reads_of MX3_PWMCNR crit) = 1%nat)
      /\ (List.length (writes_to MX3_PWMSAR crit) = 3%nat ->
          reads_of MX3_PWMCNR crit = []).
Proof.
  intros hw pwm st m Hok.
  destruct (apply_runs hw pwm st m) as (r & ev & chip' & Hr & Hrun).
  rewrite (runs_events _ _ _ _ _ Hr).
  apply runs_result in Hr as [Hr _]. rewrite Hr in Hok.
  set (cu := apply_counter_units hw st) in *.
  assert (exists head pr cr sr guard,
             ev = head ++ commit_events cu st pr cr sr guard
             /\ forallb (fun e => negb (is_irq e)) head = true
             /\ erratum_guard hw cu (apply_period_us hw (s32 pr) cr)
                  (apply_margin hw) cr (fifoav sr)
                  (u32 (imx_duty_cycle (imx m))) guard)
    as (head & pr & cr & sr & guard & -> & Hh & Hg).
  { inversion Hrun as [pr cr sr guard Hen Hf |
                       | polls cr0 pr cr sr guard Hen Hclk _ Hf];
      subst; try congruence;
      destruct Hf as (_ & _ & _ & Hg).
    - exists (wait_fifo_slot_events hw pwm (trace m)), pr, cr, sr, guard.
      destruct (wait_fifo_slot_measures hw pwm (trace m)) as (_ & _ & Hi).
      auto.
    - exists (EvClkPrepareEnable 0 :: sw_reset_events polls cr0),
        pr, cr, sr, guard.
      destruct (sw_reset_measures polls cr0) as (_ & _ & Hi).
      cbn [forallb is_irq negb andb]. auto. }
  destruct (erratum_guard_fifo _ _ _ _ _ _ _ _ Hg) as (Hle & H1 & H2).
  assert (forallb (fun e => negb (is_irq e)) guard = true) as Hgi
      by (inversion Hg; reflexivity).
  exists (head ++ [EvReadl MX3_PWMPR pr; EvReadl MX3_PWMCR cr]), sr,
    (guard ++ [EvWritel MX3_PWMSAR (u32 (duty_cycles cu))]),
    ([EvWritel MX3_PWMPR (u32 (period_cycles cu));
      EvWritel MX3_PWMCR (apply_cr (prescale cu) st)]
     ++ (if enabled st then [] else [EvClkDisableUnprepare])).
  split; [unfold commit_events; rewrite <- !app_assoc; reflexivity|].
  rewrite !forallb_app, writes_to_app, reads_of_app, Hh, Hgi.
  rewrite !length_app.
  change (List.length (writes_to MX3_PWMSAR
                         [EvWritel MX3_PWMSAR (u32 (duty_cycles cu))]))
    with 1%nat.
  change (reads_of MX3_PWMCNR [EvWritel MX3_PWMSAR (u32 (duty_cycles cu))])
    with (@nil Z).
  rewrite app_nil_r.
  split; [reflexivity|]. split; [reflexivity|]. split; [lia|].
  unfold MX3_PWMSR_FIFOAV_4WORDS, MX3_PWMSR_FIFOAV_2WORDS in *.
  split; intros Hn.
  - destruct H1 as [Hv Hc]; [lia|]. split; [lia|].
    cbn [List.length]. lia.
  - destruct H2 as [_ Hc]; [lia | exact Hc].
Qed.

Lemma apply_guard_fifo_room_witness :
  exists pre sr crit post,
    events_of (pwm_imx27_apply (scenario_hw 66000000) running_pwm
                               scenario_66MHz) scenario_machine
    = pre ++ [EvIrqSave; EvReadl MX3_PWMSR sr] ++ crit
      ++ [EvIrqRestore] ++ post
    /\ (1 <= List.length (writes_to MX3_PWMSAR crit) <= 3)%nat.
Proof.
  destruct (apply_guard_fifo_room (scenario_hw 66000000) running_pwm
              scenario_66MHz scenario_machine eq_refl)
    as (pre & sr & crit & post & Hev & _ & _ & Hn & _).
  exists pre, sr, crit, post. split; assumption.
Defined.
